(** * Validation of space records: a shallow embedding

    The three programs [ex0/space_station.py], [ex1/alien_contact.py] and
    [ex2/space_crew.py] declare record classes whose fields carry
    [Field(...)] constraints and whose cross-field rules live in a
    [model_validator(mode='after')] method called [validate_rules].

    The development has three layers:
    - the values a caller can pass, and the validation report;
    - the validation engine the classes run on: per-field validators,
      collection of the field errors, and the call of the after-validator;
    - the three programs, one module per source file.
    The theorems come last. *)

From Stdlib Require Import ZArith String Ascii List Bool Lia QArith.
From Stdlib Require Import PrimFloat Uint63.
From stdpp Require Import base gmap strings.

Set Warnings "-register-all,-inexact-float".

Local Open Scope string_scope.
Local Open Scope list_scope.

(** ** Values of the host language *)

(** A [datetime] object: the calendar fields and an optional UTC offset in
    seconds. *)
Record datetime := {
  year : Z; month : Z; day : Z;
  hour : Z; minute : Z; second : Z; microsecond : Z;
  utcoffset : option Z
}.

(** [class ContactType(Enum)] of ex1 and [class Rank(Enum)] of ex2; a member
    can itself be passed as an input value, so both are declared before
    [value]. *)
Inductive ContactType := radio | visual | physical | telepathic.

Inductive Rank := cadet | officer | lieutenant | captain | commander.

(** [class CrewMember(BaseModel)] of ex2: an instance is a legal element of
    the [crew] list of a mission. *)
Record CrewMember := {
  member_id : string;
  name : string;
  rank : Rank;
  age : Z;
  specialization : string;
  years_experience : Z;
  is_active : bool
}.

(** What a caller can hand to a class constructor as a keyword argument.
    Strings are sequences of one-byte characters; [float] is the binary64
    type of the kernel, which is the float of the host language. *)
Inductive value :=
| VNone
| VBool (b : bool)
| VInt (n : Z)
| VFloat (f : float)
| VStr (s : string)
| VDatetime (d : datetime)
| VContactType (c : ContactType)
| VRank (r : Rank)
| VCrewMember (m : CrewMember)
| VList (l : list value)
| VDict (d : gmap string value).

(** ** The validation report *)

Inductive LocItem := Key (k : string) | Idx (i : nat).

(** The error types of the engine. [value_error] carries the message of the
    [ValueError] raised by an after-validator. *)
Inductive ErrorType :=
| missing
| string_type | string_too_short | string_too_long
| int_type | int_parsing | int_from_float
| float_type | float_parsing
| bool_type | bool_parsing
| datetime_type | datetime_parsing
| greater_than_equal | less_than_equal
| enum
| list_type | too_short | too_long
| model_type
| value_error (msg : string).

Record ErrorDetails := { loc : list LocItem; type : ErrorType }.

(** The taxonomy of the specification, and where each error type falls. *)
Inductive BoundKind := Bmin | Bmax | Blength | Bmembership.

Inductive Taxonomy :=
| MissingRequiredField
| TypeCoercionFailure
| BoundViolation (kind : BoundKind)
| BusinessRuleViolation (ruleName : string).

Definition taxonomy (t : ErrorType) : Taxonomy :=
  match t with
  | missing => MissingRequiredField
  | string_too_short | string_too_long | too_short | too_long =>
      BoundViolation Blength
  | greater_than_equal => BoundViolation Bmin
  | less_than_equal => BoundViolation Bmax
  | enum => BoundViolation Bmembership
  | value_error msg => BusinessRuleViolation msg
  | _ => TypeCoercionFailure
  end.

Definition is_rule_error (e : ErrorDetails) : bool :=
  match type e with value_error _ => true | _ => false end.

Definition is_bound_error (e : ErrorDetails) : bool :=
  match taxonomy (type e) with BoundViolation _ => true | _ => false end.

Definition rule_errors (es : list ErrorDetails) : list ErrorDetails :=
  filter (fun e => is_rule_error e = true) es.

Definition field_errors (es : list ErrorDetails) : list ErrorDetails :=
  filter (fun e => is_rule_error e = false) es.

(** Exceptions a validator method can raise. The engine turns a
    [ValueError] into a [value_error] entry of the report; anything else
    leaves the constructor as it is. *)
Inductive Exception := ValueError (msg : string) | ZeroDivisionError.

Inductive Raised (A : Type) := Return (a : A) | Raise (e : Exception).
Arguments Return {A} a.
Arguments Raise {A} e.

Definition bind_raised {A B} (c : Raised A) (k : A -> Raised B) : Raised B :=
  match c with
  | Return a => k a
  | Raise e => Raise e
  end.

Notation "c ;;; k" := (bind_raised c (fun _ => k))
  (at level 100, k at level 200, right associativity).
Notation "x <~ c ;;; k" := (bind_raised c (fun x => k))
  (at level 100, c at next level, k at level 200, right associativity).

(** [if cond: raise e] *)
Definition raise_if (cond : bool) (e : Exception) : Raised unit :=
  if cond then Raise e else Return tt.

(** The outcome of calling a class constructor. *)
Inductive Outcome (A : Type) :=
| Valid (a : A)
| ValidationError (errors : list ErrorDetails)
| Uncaught (e : Exception).
Arguments Valid {A} a.
Arguments ValidationError {A} errors.
Arguments Uncaught {A} e.

(** ** The engine *)

(** The result of a validator: the coerced value, or the errors found. *)
Inductive Checked (A : Type) := Pass (a : A) | Fail (errors : list ErrorDetails).
Arguments Pass {A} a.
Arguments Fail {A} errors.

Definition Validator (A : Type) : Type := value -> Checked A.

Definition errs {A} (c : Checked A) : list ErrorDetails :=
  match c with Pass _ => [] | Fail es => es end.

(** Collect-all: both sides are evaluated and their errors appended. *)
Definition ap {A B} (f : Checked (A -> B)) (x : Checked A) : Checked B :=
  match f, x with
  | Pass g, Pass a => Pass (g a)
  | Pass _, Fail es => Fail es
  | Fail es, Pass _ => Fail es
  | Fail es1, Fail es2 => Fail (es1 ++ es2)
  end.

Notation "f <*> x" := (ap f x) (at level 61, left associativity).

Definition line_error (t : ErrorType) : ErrorDetails :=
  {| loc := []; type := t |}.

Definition with_outer_location (l : LocItem) (e : ErrorDetails) : ErrorDetails :=
  {| loc := l :: loc e; type := type e |}.

Definition at_loc {A} (l : LocItem) (c : Checked A) : Checked A :=
  match c with
  | Pass a => Pass a
  | Fail es => Fail (map (with_outer_location l) es)
  end.

(** Lax-mode conversions. A field of type [int], [float], [bool] or
    [datetime] takes an input of exactly that type as it is; for an input of
    another type the engine consults its conversion table (numeric strings,
    ISO 8601 date strings, timestamps, ...). The table belongs to the
    library, not to the programs, and is a parameter here. *)
Class Lax := {
  lax_int : value -> option Z;
  lax_float : value -> option float;
  lax_bool : value -> option bool;
  lax_datetime : value -> option datetime
}.

Definition coercion_failure (of_str other : ErrorType) (v : value) : ErrorType :=
  match v with VStr _ => of_str | _ => other end.

Definition below {A} (ltb : A -> A -> bool) (bound : option A) (x : A) : bool :=
  match bound with Some b => ltb x b | None => false end.

Definition above {A} (ltb : A -> A -> bool) (bound : option A) (x : A) : bool :=
  match bound with Some b => ltb b x | None => false end.

(** [str] with [min_length] / [max_length]. *)
Definition str_validator (min_length max_length : option nat) : Validator string :=
  fun v =>
    match v with
    | VStr s =>
        if below Nat.ltb min_length (String.length s)
        then Fail [line_error string_too_short]
        else if above Nat.ltb max_length (String.length s)
        then Fail [line_error string_too_long]
        else Pass s
    | _ => Fail [line_error string_type]
    end.

(** [int] with [ge] / [le]. *)
Definition int_validator `{Lax} (ge le : option Z) : Validator Z :=
  fun v =>
    let coerced :=
      match v with
      | VInt n => Some n
      | _ => lax_int v
      end in
    match coerced with
    | None =>
        Fail [line_error
                match v with
                | VFloat _ => int_from_float
                | _ => coercion_failure int_parsing int_type v
                end]
    | Some n =>
        if above Z.ltb le n then Fail [line_error less_than_equal]
        else if below Z.ltb ge n then Fail [line_error greater_than_equal]
        else Pass n
    end.

(** [float] with [ge] / [le]; a bound is met only when the comparison
    holds, so NaN meets no bound. *)
Definition float_validator `{Lax} (ge le : option float) : Validator float :=
  fun v =>
    let coerced :=
      match v with
      | VFloat f => Some f
      | _ => lax_float v
      end in
    match coerced with
    | None => Fail [line_error (coercion_failure float_parsing float_type v)]
    | Some f =>
        if match le with Some b => negb (PrimFloat.leb f b) | None => false end
        then Fail [line_error less_than_equal]
        else if match ge with Some b => negb (PrimFloat.leb b f) | None => false end
        then Fail [line_error greater_than_equal]
        else Pass f
    end.

Definition bool_validator `{Lax} : Validator bool :=
  fun v =>
    match v with
    | VBool b => Pass b
    | _ =>
        match lax_bool v with
        | Some b => Pass b
        | None => Fail [line_error (coercion_failure bool_parsing bool_type v)]
        end
    end.

Definition datetime_validator `{Lax} : Validator datetime :=
  fun v =>
    match v with
    | VDatetime d => Pass d
    | _ =>
        match lax_datetime v with
        | Some d => Pass d
        | None => Fail [line_error (coercion_failure datetime_parsing datetime_type v)]
        end
    end.

(** [T | None] *)
Definition nullable {A} (inner : Validator A) : Validator (option A) :=
  fun v =>
    match v with
    | VNone => Pass None
    | _ => match inner v with Pass a => Pass (Some a) | Fail es => Fail es end
    end.

(** An [Enum] field takes a member, or the value of a member. *)
Definition enum_validator {E} (of_member : value -> option E)
    (of_value : string -> option E) : Validator E :=
  fun v =>
    match of_member v with
    | Some e => Pass e
    | None =>
        match v with
        | VStr s =>
            match of_value s with
            | Some e => Pass e
            | None => Fail [line_error enum]
            end
        | _ => Fail [line_error enum]
        end
    end.

(** The elements of a list field: every element is validated, and the
    errors of element [index] are re-pathed under that index. *)
Fixpoint validate_items {A} (item : Validator A) (items : list value)
    (index : nat) : Checked (list A) :=
  match items with
  | [] => Pass []
  | x :: rest =>
      Pass cons <*> at_loc (Idx index) (item x)
                <*> validate_items item rest (S index)
  end.

(** [List[T]] with [min_length] / [max_length]. The engine gives up with
    [too_long] as soon as the element count passes [max_length]; the minimum
    is checked on the validated elements. *)
Definition list_validator {A} (min_length max_length : option nat)
    (item : Validator A) : Validator (list A) :=
  fun v =>
    match v with
    | VList l =>
        if above Nat.ltb max_length (length l)
        then Fail [line_error too_long]
        else
          match validate_items item l 0 with
          | Fail es => Fail es
          | Pass output =>
              if below Nat.ltb min_length (length output)
              then Fail [line_error too_short]
              else Pass output
          end
    | _ => Fail [line_error list_type]
    end.

(** A declared field: [name: T = Field(default, constraints...)]. The
    default [None] here stands for the [...] marker of a required field. *)
Record FieldInfo (A : Type) := Field {
  fname : string;
  default : option A;
  validator : Validator A
}.
Arguments Field {A} fname default validator.
Arguments fname {A} f.
Arguments default {A} f.
Arguments validator {A} f.

Definition Required {A} : option A := None.

(** One field of a record: the keyword argument is validated when present,
    its errors re-pathed under the field name; when absent the default is
    taken as it is, and a field without default is reported [missing]. Keys
    that name no field are ignored. *)
Definition validate_field {A} (kw : gmap string value) (f : FieldInfo A) : Checked A :=
  match kw !! fname f with
  | Some v => at_loc (Key (fname f)) (validator f v)
  | None =>
      match default f with
      | Some d => Pass d
      | None => Fail [with_outer_location (Key (fname f)) (line_error missing)]
      end
  end.

Notation "kw @ f" := (validate_field kw f) (at level 20, f at next level).

(** The name of a field with the errors its check found: a view of the field
    stage used to state properties field by field. *)
Definition report_of {A} (kw : gmap string value) (f : FieldInfo A)
    : string * list ErrorDetails :=
  (fname f, errs (kw @ f)).

(** The constructor of a record class: the field stage; if it found errors
    they are the report and the after-validator is not called; otherwise the
    after-validator runs on the record, and a [ValueError] it raises becomes
    the single entry of the report. *)
Definition model_validate {A} (fields : Checked A) (after : A -> Raised A) : Outcome A :=
  match fields with
  | Fail errors => ValidationError errors
  | Pass self =>
      match after self with
      | Return a => Valid a
      | Raise (ValueError msg) => ValidationError [line_error (value_error msg)]
      | Raise e => Uncaught e
      end
  end.

(** [s.startswith(p)] *)
Definition startswith (s p : string) : bool := String.prefix p s.

(** [x is None] *)
Definition is_None {A} (x : option A) : bool :=
  match x with None => true | Some _ => false end.

(** [float(n)] for an integer that a float holds exactly. *)
Definition float_of_int (n : Z) : float :=
  if (n <? 0)%Z then PrimFloat.opp (PrimFloat.of_uint63 (Uint63.of_Z (- n)))
  else PrimFloat.of_uint63 (Uint63.of_Z n).

(** [a / b] on integers: true division, the correctly rounded quotient
    (both operands are exact as floats below 2^53; the operands here are
    counts of list elements). *)
Definition true_div (a b : Z) : Raised float :=
  if (b =? 0)%Z then Raise ZeroDivisionError
  else Return (PrimFloat.div (float_of_int a) (float_of_int b)).

(** [len(l)] *)
Definition len {A} (l : list A) : Z := Z.of_nat (length l).

(** [(c / n * 100) < 50] as the program computes it, on floats, and the
    same comparison on the real quotient. *)
Definition below_half_float (c n : Z) : bool :=
  PrimFloat.ltb
    (PrimFloat.mul (PrimFloat.div (float_of_int c) (float_of_int n)) 100%float)
    50%float.

Definition below_half_real (c n : Z) : bool :=
  negb (Qle_bool 50 (inject_Z c / inject_Z n * 100)%Q).

(** ** ex0/space_station.py *)
Module ex0.

Record SpaceStation := {
  station_id : string;
  name : string;
  crew_size : Z;
  power_level : float;
  oxygen_level : float;
  last_maintenance : datetime;
  is_operational : bool;
  notes : option string
}.

Section Fields.
Context `{Lax}.

Definition f_station_id := Field "station_id" Required (str_validator (Some 3%nat) (Some 10%nat)).
Definition f_name := Field "name" Required (str_validator (Some 1%nat) (Some 50%nat)).
Definition f_crew_size := Field "crew_size" Required (int_validator (Some 1%Z) (Some 20%Z)).
Definition f_power_level := Field "power_level" Required (float_validator (Some 0%float) (Some 100%float)).
Definition f_oxygen_level := Field "oxygen_level" Required (float_validator (Some 0%float) (Some 100%float)).
Definition f_last_maintenance := Field "last_maintenance" Required datetime_validator.
Definition f_is_operational := Field "is_operational" (Some true) bool_validator.
Definition f_notes := Field "notes" (Some None) (nullable (str_validator None (Some 200%nat))).

Definition model_fields (kw : gmap string value) : Checked SpaceStation :=
  Pass Build_SpaceStation
    <*> kw @ f_station_id
    <*> kw @ f_name
    <*> kw @ f_crew_size
    <*> kw @ f_power_level
    <*> kw @ f_oxygen_level
    <*> kw @ f_last_maintenance
    <*> kw @ f_is_operational
    <*> kw @ f_notes.

Definition field_reports (kw : gmap string value) : list (string * list ErrorDetails) :=
  [ report_of kw f_station_id; report_of kw f_name; report_of kw f_crew_size;
    report_of kw f_power_level; report_of kw f_oxygen_level;
    report_of kw f_last_maintenance; report_of kw f_is_operational;
    report_of kw f_notes ].

(** The class has no after-validator. *)
Definition validate (kw : gmap string value) : Outcome SpaceStation :=
  model_validate (model_fields kw) Return.

End Fields.

(** The canonical raw value of a record: every field under its name,
    holding the validated value, which is a value of the declared type. *)
Definition canonical (self : SpaceStation) : gmap string value :=
  <["station_id" := VStr self.(station_id)]>
  (<["name" := VStr self.(name)]>
  (<["crew_size" := VInt self.(crew_size)]>
  (<["power_level" := VFloat self.(power_level)]>
  (<["oxygen_level" := VFloat self.(oxygen_level)]>
  (<["last_maintenance" := VDatetime self.(last_maintenance)]>
  (<["is_operational" := VBool self.(is_operational)]>
  (<["notes" := match self.(notes) with Some s => VStr s | None => VNone end]>
  ∅))))))).

End ex0.

(** ** ex1/alien_contact.py *)
Module ex1.

Definition ContactType_value (c : ContactType) : string :=
  match c with
  | radio => "radio"
  | visual => "visual"
  | physical => "physical"
  | telepathic => "telepathic"
  end.

Definition ContactType_members : list ContactType :=
  [radio; visual; physical; telepathic].

Definition ContactType_of_value (s : string) : option ContactType :=
  find (fun c => String.eqb (ContactType_value c) s) ContactType_members.

Definition ContactType_of_member (v : value) : option ContactType :=
  match v with VContactType c => Some c | _ => None end.

#[global] Instance ContactType_eq_dec : EqDecision ContactType.
Proof. solve_decision. Defined.

Record AlienContact := {
  contact_id : string;
  timestamp : datetime;
  location : string;
  contact_type : ContactType;
  signal_strength : float;
  duration_minutes : Z;
  witness_count : Z;
  message_received : option string;
  is_verified : bool
}.

Section Fields.
Context `{Lax}.

Definition f_contact_id := Field "contact_id" Required (str_validator (Some 5%nat) (Some 15%nat)).
Definition f_timestamp := Field "timestamp" Required datetime_validator.
Definition f_location := Field "location" Required (str_validator (Some 3%nat) (Some 100%nat)).
Definition f_contact_type :=
  Field "contact_type" Required (enum_validator ContactType_of_member ContactType_of_value).
Definition f_signal_strength := Field "signal_strength" Required (float_validator (Some 0%float) (Some 10%float)).
Definition f_duration_minutes := Field "duration_minutes" Required (int_validator (Some 1%Z) (Some 1440%Z)).
Definition f_witness_count := Field "witness_count" Required (int_validator (Some 1%Z) (Some 100%Z)).
Definition f_message_received :=
  Field "message_received" (Some None) (nullable (str_validator None (Some 500%nat))).
Definition f_is_verified := Field "is_verified" (Some false) bool_validator.

Definition model_fields (kw : gmap string value) : Checked AlienContact :=
  Pass Build_AlienContact
    <*> kw @ f_contact_id
    <*> kw @ f_timestamp
    <*> kw @ f_location
    <*> kw @ f_contact_type
    <*> kw @ f_signal_strength
    <*> kw @ f_duration_minutes
    <*> kw @ f_witness_count
    <*> kw @ f_message_received
    <*> kw @ f_is_verified.

Definition field_reports (kw : gmap string value) : list (string * list ErrorDetails) :=
  [ report_of kw f_contact_id; report_of kw f_timestamp; report_of kw f_location;
    report_of kw f_contact_type; report_of kw f_signal_strength;
    report_of kw f_duration_minutes; report_of kw f_witness_count;
    report_of kw f_message_received; report_of kw f_is_verified ].

End Fields.

(** [@model_validator(mode='after') def validate_rules(self)] *)
Definition validate_rules (self : AlienContact) : Raised AlienContact :=
  raise_if (negb (startswith self.(contact_id) "AC"))
    (ValueError "Contact ID must start with AC") ;;;
  raise_if (bool_decide (self.(contact_type) = physical)
            && bool_decide (self.(is_verified) = false))
    (ValueError "Physical contact reports must be verified") ;;;
  raise_if (bool_decide (self.(contact_type) = telepathic)
            && (self.(witness_count) <? 3)%Z)
    (ValueError "Telepathic contact requires at least 3 witnesses") ;;;
  raise_if (PrimFloat.ltb 7%float self.(signal_strength)
            && is_None self.(message_received))
    (ValueError "Strong signals (> 7.0) should include received messages") ;;;
  Return self.

Definition validate `{Lax} (kw : gmap string value) : Outcome AlienContact :=
  model_validate (model_fields kw) validate_rules.

(** The cross-field rules one by one, in declaration order: the message
    that names the rule and the predicate that must hold. This is the rule
    set as the specification describes it, to be compared with
    [validate_rules]. *)
Definition rules : list (string * (AlienContact -> bool)) :=
  [ ("Contact ID must start with AC",
     fun self => startswith self.(contact_id) "AC");
    ("Physical contact reports must be verified",
     fun self => implb (bool_decide (self.(contact_type) = physical)) self.(is_verified));
    ("Telepathic contact requires at least 3 witnesses",
     fun self => implb (bool_decide (self.(contact_type) = telepathic))
                       (3 <=? self.(witness_count))%Z);
    ("Strong signals (> 7.0) should include received messages",
     fun self => implb (PrimFloat.ltb 7%float self.(signal_strength))
                       (negb (is_None self.(message_received)))) ].

Definition canonical (self : AlienContact) : gmap string value :=
  <["contact_id" := VStr self.(contact_id)]>
  (<["timestamp" := VDatetime self.(timestamp)]>
  (<["location" := VStr self.(location)]>
  (<["contact_type" := VContactType self.(contact_type)]>
  (<["signal_strength" := VFloat self.(signal_strength)]>
  (<["duration_minutes" := VInt self.(duration_minutes)]>
  (<["witness_count" := VInt self.(witness_count)]>
  (<["message_received" :=
       match self.(message_received) with Some s => VStr s | None => VNone end]>
  (<["is_verified" := VBool self.(is_verified)]>
  ∅)))))))).

End ex1.

(** The messages of the rules a record violates, in declaration order. *)
Definition violations {A} (rules : list (string * (A -> bool))) (self : A) : list string :=
  map fst (filter (fun r => snd r self = false) rules).

(** ** ex2/space_crew.py *)
Module ex2.

Definition Rank_value (r : Rank) : string :=
  match r with
  | cadet => "cadet"
  | officer => "officer"
  | lieutenant => "lieutenant"
  | captain => "captain"
  | commander => "commander"
  end.

Definition Rank_members : list Rank :=
  [cadet; officer; lieutenant; captain; commander].

Definition Rank_of_value (s : string) : option Rank :=
  find (fun r => String.eqb (Rank_value r) s) Rank_members.

Definition Rank_of_member (v : value) : option Rank :=
  match v with VRank r => Some r | _ => None end.

#[global] Instance Rank_eq_dec : EqDecision Rank.
Proof. solve_decision. Defined.

(** [x in (a, b, ...)] *)
Definition Rank_in (r : Rank) (rs : list Rank) : bool :=
  existsb (fun r' => bool_decide (r = r')) rs.

Record SpaceMission := {
  mission_id : string;
  mission_name : string;
  destination : string;
  launch_date : datetime;
  duration_days : Z;
  crew : list CrewMember;
  mission_status : string;
  budget_millions : float
}.

Section Fields.
Context `{Lax}.

Definition f_member_id := Field "member_id" Required (str_validator (Some 3%nat) (Some 10%nat)).
Definition f_name := Field "name" Required (str_validator (Some 2%nat) (Some 50%nat)).
Definition f_rank := Field "rank" Required (enum_validator Rank_of_member Rank_of_value).
Definition f_age := Field "age" Required (int_validator (Some 18%Z) (Some 80%Z)).
Definition f_specialization := Field "specialization" Required (str_validator (Some 3%nat) (Some 30%nat)).
Definition f_years_experience := Field "years_experience" Required (int_validator (Some 0%Z) (Some 50%Z)).
Definition f_is_active := Field "is_active" (Some true) bool_validator.

Definition CrewMember_fields (kw : gmap string value) : Checked CrewMember :=
  Pass Build_CrewMember
    <*> kw @ f_member_id
    <*> kw @ f_name
    <*> kw @ f_rank
    <*> kw @ f_age
    <*> kw @ f_specialization
    <*> kw @ f_years_experience
    <*> kw @ f_is_active.

(** [CrewMember(...)]: the class has no after-validator. *)
Definition CrewMember_validate (kw : gmap string value) : Outcome CrewMember :=
  model_validate (CrewMember_fields kw) Return.

(** A [CrewMember] as the element of a list field: an instance of the class
    is taken as it is, a dict is validated field by field. *)
Definition CrewMember_validator : Validator CrewMember :=
  fun v =>
    match v with
    | VCrewMember m => Pass m
    | VDict d => CrewMember_fields d
    | _ => Fail [line_error model_type]
    end.

Definition f_mission_id := Field "mission_id" Required (str_validator (Some 5%nat) (Some 15%nat)).
Definition f_mission_name := Field "mission_name" Required (str_validator (Some 3%nat) (Some 100%nat)).
Definition f_destination := Field "destination" Required (str_validator (Some 3%nat) (Some 50%nat)).
Definition f_launch_date := Field "launch_date" Required datetime_validator.
Definition f_duration_days := Field "duration_days" Required (int_validator (Some 1%Z) (Some 3650%Z)).
Definition f_crew :=
  Field "crew" Required (list_validator (Some 1%nat) (Some 12%nat) CrewMember_validator).
Definition f_mission_status := Field "mission_status" (Some "planned") (str_validator None None).
Definition f_budget_millions :=
  Field "budget_millions" Required (float_validator (Some 1%float) (Some 10000%float)).

Definition model_fields (kw : gmap string value) : Checked SpaceMission :=
  Pass Build_SpaceMission
    <*> kw @ f_mission_id
    <*> kw @ f_mission_name
    <*> kw @ f_destination
    <*> kw @ f_launch_date
    <*> kw @ f_duration_days
    <*> kw @ f_crew
    <*> kw @ f_mission_status
    <*> kw @ f_budget_millions.

Definition field_reports (kw : gmap string value) : list (string * list ErrorDetails) :=
  [ report_of kw f_mission_id; report_of kw f_mission_name;
    report_of kw f_destination; report_of kw f_launch_date;
    report_of kw f_duration_days; report_of kw f_crew;
    report_of kw f_mission_status; report_of kw f_budget_millions ].

End Fields.

(** The [for member in self.crew] loop that counts the experienced members. *)
Definition count_experimented (crew : list CrewMember) : Z :=
  fold_left
    (fun experimented member =>
       if (member.(years_experience) >=? 5)%Z then (experimented + 1)%Z
       else experimented)
    crew 0%Z.

(** [@model_validator(mode='after') def validate_rules(self)] *)
Definition validate_rules (self : SpaceMission) : Raised SpaceMission :=
  raise_if (negb (startswith self.(mission_id) "M"))
    (ValueError "Mission ID must start with 'M'") ;;;
  let has_commander :=
    existsb (fun m => Rank_in m.(rank) [captain; commander]) self.(crew) in
  raise_if (negb has_commander)
    (ValueError "Mission must have at least one Commander or Captain") ;;;
  (if (self.(duration_days) >? 365)%Z then
     let experimented := count_experimented self.(crew) in
     ratio <~ true_div experimented (len self.(crew)) ;;;
     raise_if (PrimFloat.ltb (PrimFloat.mul ratio 100%float) 50%float)
       (ValueError "Long missions (> 365 days) need 50%experienced crew (5+ years)")
   else Return tt) ;;;
  let all_active := forallb (fun member => member.(is_active)) self.(crew) in
  raise_if (negb all_active)
    (ValueError "All crew members must be active") ;;;
  Return self.

Definition validate `{Lax} (kw : gmap string value) : Outcome SpaceMission :=
  model_validate (model_fields kw) validate_rules.

(** The share of experienced crew as the specification words it: the real
    quotient of the matching count by the total count, times 100. *)
Definition experienced_percent (crew : list CrewMember) : Q :=
  (inject_Z (count_experimented crew) / inject_Z (len crew) * 100)%Q.

(** The cross-field rules one by one, in declaration order, as the
    specification describes them; to be compared with [validate_rules]. *)
Definition rules : list (string * (SpaceMission -> bool)) :=
  [ ("Mission ID must start with 'M'",
     fun self => startswith self.(mission_id) "M");
    ("Mission must have at least one Commander or Captain",
     fun self => existsb (fun m => Rank_in m.(rank) [captain; commander]) self.(crew));
    ("Long missions (> 365 days) need 50%experienced crew (5+ years)",
     fun self => implb (365 <? self.(duration_days))%Z
                       (Qle_bool 50 (experienced_percent self.(crew))));
    ("All crew members must be active",
     fun self => forallb (fun member => member.(is_active)) self.(crew)) ].

Definition canonical (self : SpaceMission) : gmap string value :=
  <["mission_id" := VStr self.(mission_id)]>
  (<["mission_name" := VStr self.(mission_name)]>
  (<["destination" := VStr self.(destination)]>
  (<["launch_date" := VDatetime self.(launch_date)]>
  (<["duration_days" := VInt self.(duration_days)]>
  (<["crew" := VList (map VCrewMember self.(crew))]>
  (<["mission_status" := VStr self.(mission_status)]>
  (<["budget_millions" := VFloat self.(budget_millions)]>
  ∅))))))).

End ex2.

(** ** A conversion table for running the programs

    The inputs of the three programs use two entries of the conversion
    table: a date string ["YYYY-MM-DD"] (midnight of that day) and a
    date-time string ["YYYY-MM-DDTHH:MM:SS"]. [basic_lax] has these two and
    the conversion of a small integer to a float, and nothing else. The
    theorems below hold for every table; this one runs the examples. *)
Module iso.

Definition digit (c : ascii) : option Z :=
  let n := nat_of_ascii c in
  if (48 <=? n)%nat && (n <=? 57)%nat then Some (Z.of_nat (n - 48)) else None.

Fixpoint digits (s : string) (acc : Z) : option Z :=
  match s with
  | EmptyString => Some acc
  | String c rest =>
      match digit c with
      | Some d => digits rest (10 * acc + d)%Z
      | None => None
      end
  end.

Definition number (s : string) : option Z :=
  match s with EmptyString => None | _ => digits s 0%Z end.

Definition is_leap (y : Z) : bool :=
  ((y mod 4 =? 0) && negb (y mod 100 =? 0) || (y mod 400 =? 0))%Z.

Definition days_in_month (y m : Z) : Z :=
  if (m =? 2)%Z then (if is_leap y then 29 else 28)%Z
  else if ((m =? 4) || (m =? 6) || (m =? 9) || (m =? 11))%Z then 30%Z
  else 31%Z.

Definition char_at (s : string) (i : nat) (c : ascii) : bool :=
  match String.get i s with Some c' => Ascii.eqb c c' | None => false end.

Definition parse_date (s : string) : option (Z * Z * Z) :=
  if char_at s 4 "-" && char_at s 7 "-" then
    y ← number (substring 0 4 s);
    m ← number (substring 5 2 s);
    d ← number (substring 8 2 s);
    if ((1 <=? y) && (1 <=? m) && (m <=? 12) && (1 <=? d)
        && (d <=? days_in_month y m))%Z
    then Some (y, m, d) else None
  else None.

Definition parse_time (s : string) : option (Z * Z * Z) :=
  if char_at s 2 ":" && char_at s 5 ":" then
    h ← number (substring 0 2 s);
    m ← number (substring 3 2 s);
    sec ← number (substring 6 2 s);
    if ((h <=? 23) && (m <=? 59) && (sec <=? 59))%Z
    then Some (h, m, sec) else None
  else None.

Definition midnight (ymd : Z * Z * Z) : datetime :=
  let '(y, m, d) := ymd in
  {| year := y; month := m; day := d;
     hour := 0; minute := 0; second := 0; microsecond := 0;
     utcoffset := None |}.

Definition parse_datetime (s : string) : option datetime :=
  if (String.length s =? 10)%nat then midnight <$> parse_date s
  else if (String.length s =? 19)%nat && char_at s 10 "T" then
    ymd ← parse_date (substring 0 10 s);
    hms ← parse_time (substring 11 8 s);
    let '(h, m, sec) := hms in
    Some {| year := ymd.1.1; month := ymd.1.2; day := ymd.2;
            hour := h; minute := m; second := sec; microsecond := 0;
            utcoffset := None |}
  else None.

End iso.

#[global] Instance basic_lax : Lax := {
  lax_int := fun _ => None;
  lax_float := fun v =>
    match v with
    | VInt n =>
        if (Z.abs n <=? 9007199254740992)%Z then Some (float_of_int n) else None
    | _ => None
    end;
  lax_bool := fun _ => None;
  lax_datetime := fun v =>
    match v with
    | VStr s => iso.parse_datetime s
    | _ => None
    end
}.

(** Keyword arguments: [kwargs [(k1, v1); ...]] is the call [C(k1=v1, ...)]. *)
Definition kwargs (l : list (string * value)) : gmap string value :=
  list_to_map l.

(** The program inputs of the three [main] functions. *)
Definition valid_station : gmap string value :=
  kwargs [ ("station_id", VStr "ISS001");
           ("name", VStr "International Space Station");
           ("crew_size", VInt 6);
           ("power_level", VFloat 13.5%float);
           ("oxygen_level", VFloat 56.7%float);
           ("last_maintenance", VStr "2024-02-29") ].

Definition invalid_station : gmap string value :=
  kwargs [ ("station_id", VStr "ISS001");
           ("name", VStr "International Space Station");
           ("crew_size", VInt 23);
           ("power_level", VFloat 13.5%float);
           ("oxygen_level", VFloat 56.7%float);
           ("last_maintenance", VStr "2024-01-15T10:30:00");
           ("is_operational", VBool false) ].

Definition valid_contact : gmap string value :=
  kwargs [ ("contact_id", VStr "AC_2024_001");
           ("contact_type", VContactType radio);
           ("timestamp", VStr "2024-12-12");
           ("location", VStr "Area 51, Nevada");
           ("signal_strength", VFloat 8.5%float);
           ("duration_minutes", VInt 45);
           ("witness_count", VInt 5);
           ("message_received", VStr "Greetings from Zeta Reticuli") ].

Definition invalid_contact : gmap string value :=
  kwargs [ ("contact_id", VStr "AC2024_001");
           ("contact_type", VContactType telepathic);
           ("timestamp", VStr "2024-12-12");
           ("location", VStr "Area 51, Nevada");
           ("signal_strength", VFloat 8.5%float);
           ("duration_minutes", VInt 45);
           ("witness_count", VInt 1);
           ("message_received", VStr "Greetings from Zeta Reticuli") ].

(** The crew members of [ex2], as the keyword arguments of
    [CrewMember(...)]; a mission takes a member as such a dict or as the
    instance built from it, with the same result. *)
Definition sarah : gmap string value :=
  kwargs [ ("member_id", VStr "S001"); ("name", VStr "Sarah Connor");
           ("rank", VRank commander); ("age", VInt 27);
           ("specialization", VStr "Mission Command");
           ("years_experience", VInt 9) ].

Definition john : gmap string value :=
  kwargs [ ("member_id", VStr "J001"); ("name", VStr "John Smith");
           ("rank", VRank lieutenant); ("age", VInt 25);
           ("specialization", VStr "Navigation");
           ("years_experience", VInt 7) ].

Definition alice : gmap string value :=
  kwargs [ ("member_id", VStr "A001"); ("name", VStr "Alice Johnson");
           ("rank", VRank officer); ("age", VInt 21);
           ("specialization", VStr "Engineering");
           ("years_experience", VInt 3) ].

Definition mission (crew : list value) : gmap string value :=
  kwargs [ ("mission_id", VStr "M2024_MARS");
           ("mission_name", VStr "Mars Colony Establishment");
           ("destination", VStr "Mars");
           ("launch_date", VStr "2024-01-01");
           ("duration_days", VInt 900);
           ("crew", VList crew);
           ("budget_millions", VFloat 2500%float) ].

Definition valid_mission : gmap string value :=
  mission [VDict sarah; VDict john; VDict alice].

Definition invalid_mission : gmap string value :=
  mission [VDict john; VDict alice].


(** Further inputs, used to exercise the theorems. *)

(** A station whose [crew_size] is above 20 and whose [power_level] is
    above 100.0. *)
Definition overloaded_station : gmap string value :=
  <["power_level" := VFloat 150%float]> invalid_station.

(** A contact report that breaks three rules at once: the id lacks the
    prefix, the physical contact is not verified, the strong signal carries
    no message. *)
Definition unruly_contact : gmap string value :=
  kwargs [ ("contact_id", VStr "XX_2024_001");
           ("contact_type", VContactType physical);
           ("timestamp", VStr "2024-12-12");
           ("location", VStr "Area 51, Nevada");
           ("signal_strength", VFloat 8.5%float);
           ("duration_minutes", VInt 45);
           ("witness_count", VInt 5) ].

Definition bob : gmap string value :=
  kwargs [ ("member_id", VStr "B001"); ("name", VStr "Bob Stone");
           ("rank", VRank cadet); ("age", VInt 22);
           ("specialization", VStr "Geology");
           ("years_experience", VInt 2) ].

(** A 900-day mission with a commander, where 1 member of 3 has five years
    of experience or more. *)
Definition green_mission : gmap string value :=
  mission [VDict sarah; VDict bob; VDict alice].

(** The same crew on a mission of exactly 365 days. *)
Definition year_mission : gmap string value :=
  <["duration_days" := VInt 365]> green_mission.

(** ** What the classes declare, as propositions

    The declared bounds of each class and its cross-field rules, written
    out on the record. [x <=. y] is the float comparison [x <= y]. *)

Notation "x <=. y" := (PrimFloat.leb x y = true) (at level 70, no associativity).
Notation "x <. y" := (PrimFloat.ltb x y = true) (at level 70, no associativity).

Definition at_most (n : nat) (s : option string) : Prop :=
  forall x, s = Some x -> (String.length x <= n)%nat.

Definition SpaceStation_constraints (self : ex0.SpaceStation) : Prop :=
  (3 <= String.length (ex0.station_id self) <= 10)%nat /\
  (1 <= String.length (ex0.name self) <= 50)%nat /\
  (1 <= ex0.crew_size self <= 20)%Z /\
  (0 <=. ex0.power_level self /\ ex0.power_level self <=. 100) /\
  (0 <=. ex0.oxygen_level self /\ ex0.oxygen_level self <=. 100) /\
  at_most 200 (ex0.notes self).

Definition AlienContact_constraints (self : ex1.AlienContact) : Prop :=
  (5 <= String.length (ex1.contact_id self) <= 15)%nat /\
  (3 <= String.length (ex1.location self) <= 100)%nat /\
  (0 <=. ex1.signal_strength self /\ ex1.signal_strength self <=. 10) /\
  (1 <= ex1.duration_minutes self <= 1440)%Z /\
  (1 <= ex1.witness_count self <= 100)%Z /\
  at_most 500 (ex1.message_received self).

Definition AlienContact_business_rules (self : ex1.AlienContact) : Prop :=
  startswith (ex1.contact_id self) "AC" = true /\
  (ex1.contact_type self = physical -> ex1.is_verified self = true) /\
  (ex1.contact_type self = telepathic -> (3 <= ex1.witness_count self)%Z) /\
  (7 <. ex1.signal_strength self -> ex1.message_received self <> None).

Definition CrewMember_constraints (m : CrewMember) : Prop :=
  (3 <= String.length (member_id m) <= 10)%nat /\
  (2 <= String.length (name m) <= 50)%nat /\
  (18 <= age m <= 80)%Z /\
  (3 <= String.length (specialization m) <= 30)%nat /\
  (0 <= years_experience m <= 50)%Z.

Definition SpaceMission_constraints (self : ex2.SpaceMission) : Prop :=
  (5 <= String.length (ex2.mission_id self) <= 15)%nat /\
  (3 <= String.length (ex2.mission_name self) <= 100)%nat /\
  (3 <= String.length (ex2.destination self) <= 50)%nat /\
  (1 <= ex2.duration_days self <= 3650)%Z /\
  (1 <= length (ex2.crew self) <= 12)%nat /\
  (1 <=. ex2.budget_millions self /\ ex2.budget_millions self <=. 10000).

Definition SpaceMission_business_rules (self : ex2.SpaceMission) : Prop :=
  startswith (ex2.mission_id self) "M" = true /\
  (exists m, In m (ex2.crew self) /\ (rank m = captain \/ rank m = commander)) /\
  ((365 < ex2.duration_days self)%Z ->
   (50 <= ex2.experienced_percent (ex2.crew self))%Q) /\
  (forall m, In m (ex2.crew self) -> is_active m = true).

(** ** Properties of validator results *)

(** No error of the result is a rule error. *)
Definition field_level {A} (c : Checked A) : Prop :=
  Forall (fun e => is_rule_error e = false) (errs c).

(** Every error of the result sits at the validated value itself. *)
Definition flat {A} (c : Checked A) : Prop :=
  Forall (fun e => loc e = []) (errs c).

(** The report entry of the experience-threshold rule. *)
Definition threshold_error : ErrorDetails :=
  line_error
    (value_error "Long missions (> 365 days) need 50%experienced crew (5+ years)").

(** Optional bounds as propositions. *)
Definition lower {A} (le : A -> A -> Prop) (bound : option A) (x : A) : Prop :=
  forall a, bound = Some a -> le a x.

Definition upper {A} (le : A -> A -> Prop) (bound : option A) (x : A) : Prop :=
  forall b, bound = Some b -> le x b.

(** ** Further definitions for the properties of the classes *)

(** A result that is not an empty failure. *)
Definition proper {A} (c : Checked A) : Prop := c <> Fail [].

(** A result with one error at most. *)
Definition at_most_one {A} (c : Checked A) : Prop := (length (errs c) <= 1)%nat.

(** The paths of the declared fields of a class, in declaration order. *)
Definition paths (names : list string) : list (list LocItem) :=
  map (fun f => [Key f]) names.

(** What a call of [validate_rules] ends in: the exception it raises, if
    any. *)
Definition verdict {A} (r : Raised A) : option Exception :=
  match r with Return _ => None | Raise e => Some e end.

(** [self] with another crew list. *)
Definition with_crew (self : ex2.SpaceMission) (crew : list CrewMember)
    : ex2.SpaceMission :=
  {| ex2.mission_id := ex2.mission_id self;
     ex2.mission_name := ex2.mission_name self;
     ex2.destination := ex2.destination self;
     ex2.launch_date := ex2.launch_date self;
     ex2.duration_days := ex2.duration_days self;
     ex2.crew := crew;
     ex2.mission_status := ex2.mission_status self;
     ex2.budget_millions := ex2.budget_millions self |}.

(** The canonical raw value of a crew member. *)
Definition CrewMember_canonical (m : CrewMember) : gmap string value :=
  <["member_id" := VStr m.(member_id)]>
  (<["name" := VStr m.(name)]>
  (<["rank" := VRank m.(rank)]>
  (<["age" := VInt m.(age)]>
  (<["specialization" := VStr m.(specialization)]>
  (<["years_experience" := VInt m.(years_experience)]>
  (<["is_active" := VBool m.(is_active)]>
  ∅)))))).

(** The members with five years of experience or more. *)
Definition experienced (crew : list CrewMember) : list CrewMember :=
  List.filter (fun m => (5 <=? years_experience m)%Z) crew.

(** [self] with another crew size. *)
Definition with_crew_size (self : ex0.SpaceStation) (n : Z) : ex0.SpaceStation :=
  {| ex0.station_id := ex0.station_id self;
     ex0.name := ex0.name self;
     ex0.crew_size := n;
     ex0.power_level := ex0.power_level self;
     ex0.oxygen_level := ex0.oxygen_level self;
     ex0.last_maintenance := ex0.last_maintenance self;
     ex0.is_operational := ex0.is_operational self;
     ex0.notes := ex0.notes self |}.
(** * Theorems *)

(** ** The programs on their own inputs *)

Example valid_station_created :
  ex0.validate valid_station =
  Valid {| ex0.station_id := "ISS001";
           ex0.name := "International Space Station";
           ex0.crew_size := 6;
           ex0.power_level := 13.5%float;
           ex0.oxygen_level := 56.7%float;
           ex0.last_maintenance := iso.midnight (2024, 2, 29)%Z;
           ex0.is_operational := true;
           ex0.notes := None |}.
Proof. vm_compute. reflexivity. Qed.

Example invalid_station_report :
  ex0.validate invalid_station =
  ValidationError [ {| loc := [Key "crew_size"]; type := less_than_equal |} ].
Proof. vm_compute. reflexivity. Qed.

Example valid_contact_created :
  exists r, ex1.validate valid_contact = Valid r /\ ex1.contact_id r = "AC_2024_001".
Proof. eexists. split; vm_compute; reflexivity. Qed.

Example invalid_contact_report :
  ex1.validate invalid_contact =
  ValidationError
    [ line_error (value_error "Telepathic contact requires at least 3 witnesses") ].
Proof. vm_compute. reflexivity. Qed.

Example valid_mission_created :
  exists r, ex2.validate valid_mission = Valid r /\ length (ex2.crew r) = 3%nat.
Proof. eexists. split; vm_compute; reflexivity. Qed.

Example invalid_mission_report :
  ex2.validate invalid_mission =
  ValidationError
    [ line_error (value_error "Mission must have at least one Commander or Captain") ].
Proof. vm_compute. reflexivity. Qed.

(** The errors of a crew member given as a dict are re-pathed under the
    field and the index of the member; both members are checked. *)
Example nested_errors_repathed :
  ex2.validate
    (mission [VDict sarah; VDict (<["age" := VInt 12]> john);
              VDict (<["years_experience" := VInt 51]> alice)]) =
  ValidationError
    [ {| loc := [Key "crew"; Idx 1; Key "age"]; type := greater_than_equal |};
      {| loc := [Key "crew"; Idx 2; Key "years_experience"];
         type := less_than_equal |} ].
Proof. vm_compute. reflexivity. Qed.

(** ** The engine: collecting errors *)

Lemma errs_ap {A B} (f : Checked (A -> B)) (x : Checked A) :
  errs (f <*> x) = errs f ++ errs x.
Proof.
  destruct f as [g|es1], x as [a|es2]; simpl; try reflexivity.
  now rewrite app_nil_r.
Qed.

Lemma ap_Pass_inv {A B} (f : Checked (A -> B)) (x : Checked A) (b : B) :
  f <*> x = Pass b -> exists g a, f = Pass g /\ x = Pass a /\ b = g a.
Proof.
  destruct f as [g|es1], x as [a|es2]; simpl; intros E; try discriminate.
  injection E as <-. eauto.
Qed.

Lemma errs_at_loc {A} (l : LocItem) (c : Checked A) :
  errs (at_loc l c) = map (with_outer_location l) (errs c).
Proof. now destruct c. Qed.

Lemma errs_nonempty_Fail {A} (c : Checked A) :
  errs c <> [] -> c = Fail (errs c).
Proof. destruct c; simpl; congruence. Qed.

(** The report of a constructor whose field stage found an error is the
    list of the field errors: the after-validator has no say. *)
Lemma field_stage_report {A} (fields : Checked A) (after : A -> Raised A) e :
  In e (errs fields) ->
  model_validate fields after = ValidationError (errs fields).
Proof.
  intros Hin. rewrite (errs_nonempty_Fail fields); [reflexivity|].
  intros E. now rewrite E in Hin.
Qed.

(** *** No validator of the field stage reports a rule error *)


Lemma field_level_Pass {A} (a : A) : field_level (Pass a).
Proof. constructor. Qed.

Lemma field_level_single {A} (t : ErrorType) :
  (forall msg, t <> value_error msg) -> @field_level A (Fail [line_error t]).
Proof.
  intros Ht. repeat constructor. unfold is_rule_error. simpl.
  destruct t; try reflexivity. now contradiction (Ht msg).
Qed.

Lemma field_level_ap {A B} (f : Checked (A -> B)) (x : Checked A) :
  field_level f -> field_level x -> field_level (f <*> x).
Proof.
  unfold field_level. rewrite errs_ap. intros Hf Hx.
  apply Forall_app. now split.
Qed.

Lemma field_level_at_loc {A} (l : LocItem) (c : Checked A) :
  field_level c -> field_level (at_loc l c).
Proof.
  unfold field_level. rewrite errs_at_loc. intros Hc.
  induction Hc; simpl; constructor; assumption.
Qed.

Lemma field_level_str mn mx v : field_level (str_validator mn mx v).
Proof.
  unfold str_validator. destruct v; try (now apply field_level_single).
  repeat case_match; (apply field_level_Pass || now apply field_level_single).
Qed.

Lemma field_level_int `{Lax} lo hi v : field_level (int_validator lo hi v).
Proof.
  unfold int_validator, coercion_failure.
  repeat case_match; (apply field_level_Pass || now apply field_level_single).
Qed.

Lemma field_level_float `{Lax} lo hi v : field_level (float_validator lo hi v).
Proof.
  unfold float_validator, coercion_failure.
  repeat case_match; (apply field_level_Pass || now apply field_level_single).
Qed.

Lemma field_level_bool `{Lax} v : field_level (bool_validator v).
Proof.
  unfold bool_validator, coercion_failure.
  repeat case_match; (apply field_level_Pass || now apply field_level_single).
Qed.

Lemma field_level_datetime `{Lax} v : field_level (datetime_validator v).
Proof.
  unfold datetime_validator, coercion_failure.
  repeat case_match; (apply field_level_Pass || now apply field_level_single).
Qed.

Lemma field_level_nullable {A} (inner : Validator A) v :
  (forall v, field_level (inner v)) -> field_level (nullable inner v).
Proof.
  intros Hin. unfold nullable.
  destruct v; try apply field_level_Pass;
    (match goal with |- context [inner ?x] => specialize (Hin x); destruct (inner x) end);
    (apply field_level_Pass || exact Hin).
Qed.

Lemma field_level_enum {E} (m : value -> option E) (f : string -> option E) v :
  field_level (enum_validator m f v).
Proof.
  unfold enum_validator.
  repeat case_match; (apply field_level_Pass || now apply field_level_single).
Qed.

Lemma field_level_items {A} (item : Validator A) l i :
  (forall v, field_level (item v)) -> field_level (validate_items item l i).
Proof.
  intros Hitem. revert i. induction l as [|x l IH]; intros i; cbn [validate_items].
  - apply field_level_Pass.
  - apply field_level_ap; [apply field_level_ap|].
    + apply field_level_Pass.
    + apply field_level_at_loc, Hitem.
    + apply IH.
Qed.

Lemma field_level_list {A} mn mx (item : Validator A) v :
  (forall v, field_level (item v)) -> field_level (list_validator mn mx item v).
Proof.
  intros Hitem. unfold list_validator.
  destruct v; try (now apply field_level_single).
  case_match; [now apply field_level_single|].
  pose proof (field_level_items item l 0 Hitem) as Hl.
  destruct (validate_items item l 0); [|exact Hl].
  case_match; [now apply field_level_single | apply field_level_Pass].
Qed.

Lemma field_level_field {A} kw (f : FieldInfo A) :
  (forall v, field_level (validator f v)) -> field_level (kw @ f).
Proof.
  intros Hv. unfold validate_field.
  destruct (kw !! fname f).
  - now apply field_level_at_loc.
  - destruct (default f); [apply field_level_Pass|].
    repeat constructor.
Qed.

Lemma field_level_CrewMember `{Lax} v : field_level (ex2.CrewMember_validator v).
Proof.
  unfold ex2.CrewMember_validator.
  destruct v; try (now apply field_level_single); try apply field_level_Pass.
  unfold ex2.CrewMember_fields.
  repeat apply field_level_ap; try apply field_level_Pass;
    apply field_level_field; intros v; simpl;
    auto using field_level_str, field_level_int, field_level_bool, field_level_enum.
Qed.

Lemma field_level_ex0 `{Lax} kw : field_level (ex0.model_fields kw).
Proof.
  unfold ex0.model_fields.
  repeat apply field_level_ap; try apply field_level_Pass;
    apply field_level_field; intros v; simpl;
    auto using field_level_str, field_level_int, field_level_float,
      field_level_bool, field_level_datetime, field_level_nullable.
Qed.

Lemma field_level_ex1 `{Lax} kw : field_level (ex1.model_fields kw).
Proof.
  unfold ex1.model_fields.
  repeat apply field_level_ap; try apply field_level_Pass;
    apply field_level_field; intros v; simpl;
    auto using field_level_str, field_level_int, field_level_float,
      field_level_bool, field_level_datetime, field_level_nullable,
      field_level_enum.
Qed.

Lemma field_level_ex2 `{Lax} kw : field_level (ex2.model_fields kw).
Proof.
  unfold ex2.model_fields.
  repeat apply field_level_ap; try apply field_level_Pass;
    apply field_level_field; intros v; simpl;
    auto using field_level_str, field_level_int, field_level_float,
      field_level_datetime, field_level_list, field_level_CrewMember.
Qed.

Lemma field_level_rule_errors {A} (c : Checked A) :
  field_level c -> rule_errors (errs c) = [].
Proof.
  unfold field_level, rule_errors. intros Hc.
  induction Hc as [|e es He _ IH]; [reflexivity|].
  rewrite filter_cons. destruct (decide (is_rule_error e = true)); [congruence|exact IH].
Qed.

(** ** Field failure short-circuits the rule stage *)

Lemma missing_in {A} kw (f : FieldInfo A) (name : string) :
  fname f = name -> default f = None -> kw !! name = None ->
  In {| loc := [Key name]; type := missing |} (errs (kw @ f)).
Proof.
  intros <- Hd Hk. unfold validate_field. rewrite Hk, Hd. now left.
Qed.

Ltac pick_field H :=
  first [ solve [right; apply missing_in; [reflexivity | reflexivity | exact H]]
        | left; pick_field H ].

Ltac missing_reported H := rewrite !errs_ap, !in_app_iff; pick_field H.

Lemma missing_field_report {A} (fields : Checked A) (after : A -> Raised A) f :
  field_level fields ->
  In {| loc := [Key f]; type := missing |} (errs fields) ->
  exists errors, model_validate fields after = ValidationError errors /\
    In {| loc := [Key f]; type := missing |} errors /\ rule_errors errors = [].
Proof.
  intros Hlevel Hin. exists (errs fields). split; [|split].
  - eapply field_stage_report, Hin.
  - exact Hin.
  - now apply field_level_rule_errors.
Qed.

(** C2. A raw input that lacks a required field is answered with an error
    report that has a [missing] error (MissingRequiredField) at that
    field's path and no rule error (BusinessRuleViolation): the
    after-validator [validate_rules] is not evaluated. Stated for the
    required fields of [AlienContact], of [SpaceMission] and of
    [SpaceStation]. *)
Theorem missing_field_skips_rules `{Lax} (kw : gmap string value) (f : string) :
  kw !! f = None ->
  (In f ["contact_id"; "timestamp"; "location"; "contact_type";
         "signal_strength"; "duration_minutes"; "witness_count"] ->
   exists errors, ex1.validate kw = ValidationError errors /\
     In {| loc := [Key f]; type := missing |} errors /\ rule_errors errors = [])
  /\
  (In f ["mission_id"; "mission_name"; "destination"; "launch_date";
         "duration_days"; "crew"; "budget_millions"] ->
   exists errors, ex2.validate kw = ValidationError errors /\
     In {| loc := [Key f]; type := missing |} errors /\ rule_errors errors = [])
  /\
  (In f ["station_id"; "name"; "crew_size"; "power_level"; "oxygen_level";
         "last_maintenance"] ->
   exists errors, ex0.validate kw = ValidationError errors /\
     In {| loc := [Key f]; type := missing |} errors /\ rule_errors errors = []).
Proof.
  intros Hnone. repeat split; intros Hf.
  - apply missing_field_report; [apply field_level_ex1|].
    unfold ex1.model_fields.
    repeat (destruct Hf as [<-|Hf]; [missing_reported Hnone|]). destruct Hf.
  - apply missing_field_report; [apply field_level_ex2|].
    unfold ex2.model_fields.
    repeat (destruct Hf as [<-|Hf]; [missing_reported Hnone|]). destruct Hf.
  - apply missing_field_report; [apply field_level_ex0|].
    unfold ex0.model_fields.
    repeat (destruct Hf as [<-|Hf]; [missing_reported Hnone|]). destruct Hf.
Qed.

(** A mission without [crew], and with a mission_id that breaks the prefix
    rule: the report has the missing field and no rule error. *)
Lemma missing_field_skips_rules_witness :
  exists errors,
    ex2.validate (delete "crew" (<["mission_id" := VStr "X2024_MARS"]> valid_mission))
      = ValidationError errors /\
    In {| loc := [Key "crew"]; type := missing |} errors /\ rule_errors errors = [].
Proof.
  apply (missing_field_skips_rules
           (delete "crew" (<["mission_id" := VStr "X2024_MARS"]> valid_mission)) "crew").
  - reflexivity.
  - simpl. auto 10.
Defined.

(** ** Field errors are collected across fields *)

Lemma concat_all_nil {K T} (l : list (K * list T)) :
  (forall f es, In (f, es) l -> es = []) -> concat (map snd l) = [].
Proof.
  induction l as [|[f es] l IH]; intros Hall; [reflexivity|]. simpl.
  rewrite (Hall f es) by now left.
  apply IH. intros f' es' Hin. apply (Hall f' es'). now right.
Qed.

Lemma concat_one {K T} (l : list (K * list T)) f1 e1 :
  List.NoDup (map fst l) -> In (f1, [e1]) l ->
  (forall f es, In (f, es) l -> f <> f1 -> es = []) ->
  concat (map snd l) = [e1].
Proof.
  induction l as [|[f es] l IH]; intros Hnd Hin Hrest; [destruct Hin|].
  simpl in Hnd. apply List.NoDup_cons_iff in Hnd as [Hf Hnd].
  assert (Hfst : forall g gs, In (g, gs) l -> g <> f).
  { intros g gs Hg ->. apply Hf. now apply (in_map fst) in Hg. }
  simpl. destruct Hin as [E|Hin].
  - injection E as -> ->.
    rewrite concat_all_nil; [reflexivity|].
    intros g gs Hg. apply (Hrest g gs); [now right|]. now apply (Hfst g gs).
  - rewrite (Hrest f es); [|now left|].
    + apply IH; auto. intros g gs Hg. apply Hrest. now right.
    + intros ->. now apply (Hfst f1 [e1]).
Qed.

Lemma concat_two {K T} (l : list (K * list T)) f1 f2 e1 e2 :
  List.NoDup (map fst l) -> f1 <> f2 ->
  In (f1, [e1]) l -> In (f2, [e2]) l ->
  (forall f es, In (f, es) l -> f <> f1 -> f <> f2 -> es = []) ->
  concat (map snd l) = [e1; e2] \/ concat (map snd l) = [e2; e1].
Proof.
  induction l as [|[f es] l IH]; intros Hnd Hne Hin1 Hin2 Hrest; [destruct Hin1|].
  pose proof Hnd as Hnd0.
  simpl in Hnd. apply List.NoDup_cons_iff in Hnd as [Hf Hnd].
  assert (Hfst : forall g gs, In (g, gs) l -> g <> f).
  { intros g gs Hg ->. apply Hf. now apply (in_map fst) in Hg. }
  simpl. destruct Hin1 as [E1|Hin1], Hin2 as [E2|Hin2].
  - congruence.
  - injection E1 as -> ->. left.
    rewrite (concat_one l f2 e2); auto.
    intros g gs Hg Hg2. apply (Hrest g gs); [now right| |assumption].
    now apply (Hfst g gs).
  - injection E2 as -> ->. right.
    rewrite (concat_one l f1 e1); auto.
    intros g gs Hg Hg1. apply (Hrest g gs); [now right|assumption|].
    now apply (Hfst g gs).
  - rewrite (Hrest f es); [| now left | |].
    + apply IH; auto. intros g gs Hg. apply Hrest. now right.
    + intros ->. now apply (Hfst f1 [e1]).
    + intros ->. now apply (Hfst f2 [e2]).
Qed.

(** *** Scalar validators report at the field itself *)


Lemma flat_Pass {A} (a : A) : flat (Pass a).
Proof. constructor. Qed.

Lemma flat_single {A} (t : ErrorType) : @flat A (Fail [line_error t]).
Proof. repeat constructor. Qed.

Lemma flat_str mn mx v : flat (str_validator mn mx v).
Proof.
  unfold str_validator. repeat case_match; (apply flat_Pass || apply flat_single).
Qed.

Lemma flat_int `{Lax} lo hi v : flat (int_validator lo hi v).
Proof.
  unfold int_validator. repeat case_match; (apply flat_Pass || apply flat_single).
Qed.

Lemma flat_float `{Lax} lo hi v : flat (float_validator lo hi v).
Proof.
  unfold float_validator. repeat case_match; (apply flat_Pass || apply flat_single).
Qed.

Lemma flat_bool `{Lax} v : flat (bool_validator v).
Proof.
  unfold bool_validator. repeat case_match; (apply flat_Pass || apply flat_single).
Qed.

Lemma flat_datetime `{Lax} v : flat (datetime_validator v).
Proof.
  unfold datetime_validator. repeat case_match; (apply flat_Pass || apply flat_single).
Qed.

Lemma flat_enum {E} (m : value -> option E) (f : string -> option E) v :
  flat (enum_validator m f v).
Proof.
  unfold enum_validator. repeat case_match; (apply flat_Pass || apply flat_single).
Qed.

Lemma flat_nullable {A} (inner : Validator A) v :
  (forall v, flat (inner v)) -> flat (nullable inner v).
Proof.
  intros Hin. unfold nullable.
  destruct v; try apply flat_Pass;
    (match goal with |- context [inner ?x] => specialize (Hin x); destruct (inner x) end);
    (apply flat_Pass || exact Hin).
Qed.

(** The errors of a field whose validator is flat sit at the field's name. *)
Lemma report_of_loc {A} kw (f : FieldInfo A) name es :
  (forall v, flat (validator f v)) ->
  (name, es) = report_of kw f ->
  Forall (fun e => loc e = [Key name]) es.
Proof.
  intros Hflat E. injection E as -> ->. unfold validate_field.
  destruct (kw !! fname f) as [v|].
  - rewrite errs_at_loc. specialize (Hflat v). unfold flat in Hflat.
    induction Hflat as [|e es He _ IH]; simpl; constructor; [|exact IH].
    simpl. now rewrite He.
  - destruct (default f); repeat constructor.
Qed.

Lemma ex0_reports_errs `{Lax} kw :
  errs (ex0.model_fields kw) = concat (map snd (ex0.field_reports kw)).
Proof.
  unfold ex0.model_fields, ex0.field_reports, report_of.
  rewrite !errs_ap. cbn [errs map snd concat]. rewrite app_nil_r.
  now rewrite <- !app_assoc.
Qed.

Lemma ex0_reports_NoDup `{Lax} kw : List.NoDup (map fst (ex0.field_reports kw)).
Proof. cbn. repeat constructor; cbn; intuition discriminate. Qed.

Lemma ex0_reports_loc `{Lax} kw f es :
  In (f, es) (ex0.field_reports kw) -> Forall (fun e => loc e = [Key f]) es.
Proof.
  unfold ex0.field_reports. intros Hin.
  repeat (destruct Hin as [E|Hin];
          [symmetry in E; revert E; apply report_of_loc; intros v; cbn;
           auto using flat_str, flat_int, flat_float, flat_bool, flat_datetime,
             flat_nullable|]).
  destruct Hin.
Qed.

(** C3. Field errors are collected with no short-circuit between fields: a
    raw [SpaceStation] input in which exactly two different fields fail,
    each with one bound violation, and every other field passes, is
    answered with a report of exactly two errors, one at each of the two
    fields. *)
Theorem two_bound_violations_two_errors `{Lax} (kw : gmap string value)
    (f1 f2 : string) (e1 e2 : ErrorDetails) :
  f1 <> f2 ->
  In (f1, [e1]) (ex0.field_reports kw) ->
  In (f2, [e2]) (ex0.field_reports kw) ->
  is_bound_error e1 = true -> is_bound_error e2 = true ->
  (forall f es, In (f, es) (ex0.field_reports kw) -> f <> f1 -> f <> f2 -> es = []) ->
  exists report,
    ex0.validate kw = ValidationError report /\
    length report = 2%nat /\
    (report = [e1; e2] \/ report = [e2; e1]) /\
    loc e1 = [Key f1] /\ loc e2 = [Key f2].
Proof.
  intros Hne Hin1 Hin2 _ _ Hrest.
  pose proof (concat_two _ f1 f2 e1 e2 (ex0_reports_NoDup kw) Hne Hin1 Hin2 Hrest) as Hc.
  rewrite <- ex0_reports_errs in Hc.
  exists (errs (ex0.model_fields kw)). repeat split.
  - apply (field_stage_report _ _ e1). destruct Hc as [-> | ->]; simpl; auto.
  - now destruct Hc as [-> | ->].
  - exact Hc.
  - apply ex0_reports_loc in Hin1. now inversion Hin1.
  - apply ex0_reports_loc in Hin2. now inversion Hin2.
Qed.

(** The station with 23 crew and 150.0 power: two errors, in field order. *)
Lemma two_bound_violations_two_errors_witness :
  exists report,
    ex0.validate overloaded_station = ValidationError report /\
    length report = 2%nat /\
    (report = [ {| loc := [Key "crew_size"]; type := less_than_equal |};
                {| loc := [Key "power_level"]; type := less_than_equal |} ]
     \/ report = [ {| loc := [Key "power_level"]; type := less_than_equal |};
                   {| loc := [Key "crew_size"]; type := less_than_equal |} ]) /\
    [Key "crew_size"] = [Key "crew_size"] /\ [Key "power_level"] = [Key "power_level"].
Proof.
  apply (two_bound_violations_two_errors overloaded_station "crew_size" "power_level"
           {| loc := [Key "crew_size"]; type := less_than_equal |}
           {| loc := [Key "power_level"]; type := less_than_equal |}).
  - discriminate.
  - vm_compute. auto 10.
  - vm_compute. auto 10.
  - reflexivity.
  - reflexivity.
  - intros f es Hin Hf1 Hf2. vm_compute in Hin.
    repeat (destruct Hin as [E|Hin]; [injection E as <- <-; congruence|]).
    destruct Hin.
Defined.

(** ** Inverting the field stage *)

(** [invert_fields H] splits [H : Pass C <*> c1 <*> ... <*> cn = Pass self]
    into one equation [ci = Pass vi] per field and rewrites [self]. *)
Ltac invert_fields H :=
  repeat (let g := fresh "g" in
          let a := fresh "v" in
          let Hf := fresh "Hf" in
          let Hx := fresh "Hv" in
          apply ap_Pass_inv in H as (g & a & Hf & Hx & ->);
          rename Hf into H);
  injection H as <-.

Lemma validate_items_length {A} (item : Validator A) l i out :
  validate_items item l i = Pass out -> length out = length l.
Proof.
  revert i out. induction l as [|x l IH]; intros i out; cbn [validate_items].
  - now intros [= <-].
  - intros E. apply ap_Pass_inv in E as (g & tl & E & Htl & ->).
    apply ap_Pass_inv in E as (c & hd & E & _ & ->).
    injection E as <-. simpl. f_equal. now apply (IH (S i)).
Qed.

Lemma list_validator_Pass {A} (mn mx : nat) (item : Validator A) v out :
  list_validator (Some mn) (Some mx) item v = Pass out ->
  (mn <= length out <= mx)%nat.
Proof.
  unfold list_validator. destruct v; try discriminate. cbn [above below].
  destruct (Nat.ltb_spec mx (length l)); [discriminate|].
  destruct (validate_items item l 0) as [o|] eqn:Hitems; [|discriminate].
  destruct (Nat.ltb_spec (length o) mn); [discriminate|].
  intros [= <-]. apply validate_items_length in Hitems. lia.
Qed.

Lemma validate_field_Pass {A} (P : A -> Prop) kw (f : FieldInfo A) a :
  kw @ f = Pass a ->
  (forall v, validator f v = Pass a -> P a) ->
  (default f = Some a -> P a) ->
  P a.
Proof.
  unfold validate_field. intros E Hv Hd.
  destruct (kw !! fname f) as [v|].
  - apply (Hv v). destruct (validator f v); [exact E|discriminate].
  - destruct (default f); [|discriminate]. injection E as ->. now apply Hd.
Qed.

Lemma ex2_crew_length `{Lax} kw self :
  ex2.model_fields kw = Pass self -> (1 <= length (ex2.crew self) <= 12)%nat.
Proof.
  intros E. unfold ex2.model_fields in E. invert_fields E. cbn [ex2.crew].
  match goal with Hc : kw @ ex2.f_crew = Pass _ |- _ =>
    apply (validate_field_Pass (fun c => (1 <= length c <= 12)%nat) _ _ _ Hc) end.
  - intros x. apply list_validator_Pass.
  - discriminate.
Qed.

(** ** The experienced-crew percentage *)

Lemma count_experimented_bounds crew :
  (0 <= ex2.count_experimented crew <= len crew)%Z.
Proof.
  unfold ex2.count_experimented, len.
  assert (G : forall acc,
    (acc <= fold_left
       (fun experimented member =>
          if (years_experience member >=? 5)%Z then (experimented + 1)%Z
          else experimented) crew acc <= acc + Z.of_nat (length crew))%Z).
  { induction crew as [|m crew IH]; intros acc; simpl length; simpl fold_left.
    - lia.
    - specialize (IH (if (years_experience m >=? 5)%Z then (acc + 1)%Z else acc)).
      destruct (years_experience m >=? 5)%Z; lia. }
  specialize (G 0%Z). lia.
Qed.

Lemma below_half_table :
  forallb (fun n =>
    forallb (fun c =>
      Bool.eqb (below_half_float (Z.of_nat c) (Z.of_nat n))
               (below_half_real (Z.of_nat c) (Z.of_nat n)))
      (seq 0 (S n)))
    (seq 1 12) = true.
Proof. vm_compute. reflexivity. Qed.

(** For a collection of 1 to 12 elements the float comparison of the
    program and the comparison of the real quotient agree. *)
Lemma below_half_exact (c n : Z) :
  (1 <= n <= 12)%Z -> (0 <= c <= n)%Z ->
  below_half_float c n = below_half_real c n.
Proof.
  intros Hn Hc.
  pose proof below_half_table as T.
  rewrite forallb_forall in T.
  assert (In (Z.to_nat n) (seq 1 12)) as Hin by (apply in_seq; lia).
  specialize (T _ Hin). rewrite forallb_forall in T.
  specialize (T (Z.to_nat c)). rewrite !Z2Nat.id in T by lia.
  apply Bool.eqb_prop, T, in_seq. lia.
Qed.

(** ** The rule stage stops at the first failing rule *)

Lemma violations_nil {A} (self : A) : violations [] self = [].
Proof. reflexivity. Qed.

Lemma violations_cons {A} msg (p : A -> bool) rs (self : A) :
  violations ((msg, p) :: rs) self =
  if p self then violations rs self else msg :: violations rs self.
Proof.
  unfold violations. rewrite filter_cons. cbn [snd].
  destruct (p self); reflexivity.
Qed.

(** [validate_rules] of [AlienContact] against the rule set: it returns the
    record when no rule is violated and otherwise raises the message of the
    first violated rule. *)
Lemma ex1_first_violation (self : ex1.AlienContact) :
  ex1.validate_rules self =
  match violations ex1.rules self with
  | [] => Return self
  | msg :: _ => Raise (ValueError msg)
  end.
Proof.
  unfold ex1.validate_rules, ex1.rules.
  rewrite !violations_cons, violations_nil. cbv beta.
  rewrite (Z.leb_antisym (ex1.witness_count self) 3).
  destruct (startswith (ex1.contact_id self) "AC");
    destruct (ex1.contact_type self);
    destruct (ex1.is_verified self);
    destruct (ex1.witness_count self <? 3)%Z;
    destruct (PrimFloat.ltb 7 (ex1.signal_strength self));
    destruct (ex1.message_received self); reflexivity.
Qed.

Lemma ex2_threshold_step (crew : list CrewMember) (d : Z) (e : Exception) :
  (1 <= length crew <= 12)%nat ->
  (if (d >? 365)%Z then
     ratio <~ true_div (ex2.count_experimented crew) (len crew) ;;;
     raise_if (PrimFloat.ltb (PrimFloat.mul ratio 100%float) 50%float) e
   else Return tt)
  = raise_if ((365 <? d)%Z && negb (Qle_bool 50 (ex2.experienced_percent crew))) e.
Proof.
  intros Hlen. rewrite Z.gtb_ltb. destruct (365 <? d)%Z; [|reflexivity].
  unfold true_div.
  assert (1 <= len crew <= 12)%Z as Hn by (unfold len; lia).
  destruct (Z.eqb_spec (len crew) 0); [lia|]. cbn [bind_raised andb].
  change (PrimFloat.ltb _ _)
    with (below_half_float (ex2.count_experimented crew) (len crew)).
  rewrite below_half_exact; [reflexivity|exact Hn|apply count_experimented_bounds].
Qed.

(** The same for [SpaceMission], whose third rule divides by the crew
    count: for a crew of 1 to 12, which is what the field stage lets
    through. *)
Lemma ex2_first_violation (self : ex2.SpaceMission) :
  (1 <= length (ex2.crew self) <= 12)%nat ->
  ex2.validate_rules self =
  match violations ex2.rules self with
  | [] => Return self
  | msg :: _ => Raise (ValueError msg)
  end.
Proof.
  intros Hlen. unfold ex2.validate_rules, ex2.rules.
  rewrite !violations_cons, violations_nil. cbv beta zeta.
  rewrite (ex2_threshold_step _ _ _ Hlen).
  destruct (startswith (ex2.mission_id self) "M");
    destruct (existsb _ (ex2.crew self));
    destruct (365 <? ex2.duration_days self)%Z;
    destruct (Qle_bool 50 (ex2.experienced_percent (ex2.crew self)));
    destruct (forallb _ (ex2.crew self)); reflexivity.
Qed.

(** C1, as amended. For every record whose fields all pass, the rules are
    evaluated in declaration order up to the first one that fails: the
    report holds exactly one rule error, the message of the first violated
    rule, whatever the number of violated rules; with no violated rule the
    record is returned. Stated for [AlienContact] and [SpaceMission]. *)
Theorem first_failing_rule_only `{Lax} (kw : gmap string value) :
  (forall self, ex1.model_fields kw = Pass self ->
     ex1.validate kw =
     match violations ex1.rules self with
     | [] => Valid self
     | msg :: _ => ValidationError [line_error (value_error msg)]
     end)
  /\
  (forall self, ex2.model_fields kw = Pass self ->
     ex2.validate kw =
     match violations ex2.rules self with
     | [] => Valid self
     | msg :: _ => ValidationError [line_error (value_error msg)]
     end).
Proof.
  split; intros self Hfields.
  - unfold ex1.validate, model_validate. rewrite Hfields, ex1_first_violation.
    now destruct (violations ex1.rules self).
  - unfold ex2.validate, model_validate.
    rewrite Hfields, ex2_first_violation by now apply (ex2_crew_length kw).
    now destruct (violations ex2.rules self).
Qed.

(** The record of [unruly_contact] after the field stage. *)
Lemma unruly_contact_fields :
  ex1.model_fields unruly_contact =
  Pass {| ex1.contact_id := "XX_2024_001";
          ex1.timestamp := iso.midnight (2024, 12, 12)%Z;
          ex1.location := "Area 51, Nevada";
          ex1.contact_type := physical;
          ex1.signal_strength := 8.5%float;
          ex1.duration_minutes := 45;
          ex1.witness_count := 5;
          ex1.message_received := None;
          ex1.is_verified := false |}.
Proof. vm_compute. reflexivity. Qed.

Lemma first_failing_rule_only_witness :
  ex1.validate unruly_contact =
  ValidationError [line_error (value_error "Contact ID must start with AC")].
Proof.
  exact (proj1 (first_failing_rule_only unruly_contact) _ unruly_contact_fields).
Defined.

(** C1, as stated, fails: [unruly_contact] passes the field stage and
    violates three rules, and its report holds one rule error, not three. *)
Lemma three_violations_one_error :
  exists self report,
    ex1.model_fields unruly_contact = Pass self /\
    violations ex1.rules self =
      [ "Contact ID must start with AC";
        "Physical contact reports must be verified";
        "Strong signals (> 7.0) should include received messages" ] /\
    ex1.validate unruly_contact = ValidationError report /\
    length (rule_errors report) = 1%nat /\
    length (rule_errors report) <> length (violations ex1.rules self).
Proof.
  eexists _, _. split; [exact unruly_contact_fields|].
  split; [vm_compute; reflexivity|].
  split; [vm_compute; reflexivity|].
  split; [reflexivity|]. vm_compute. discriminate.
Qed.

(** ** The rules of a mission, as propositions *)

Lemma has_commander_iff (crew : list CrewMember) :
  existsb (fun m => ex2.Rank_in (rank m) [captain; commander]) crew = true <->
  exists m, In m crew /\ (rank m = captain \/ rank m = commander).
Proof.
  rewrite existsb_exists. split; intros (m & Hin & Hm); exists m; (split; [exact Hin|]).
  - destruct (rank m); try discriminate; auto.
  - now destruct Hm as [-> | ->].
Qed.

Lemma all_active_iff (crew : list CrewMember) :
  forallb (fun member => is_active member) crew = true <->
  forall m, In m crew -> is_active m = true.
Proof. apply forallb_forall. Qed.

Ltac pick_with tac :=
  first [ solve [right; tac] | left; pick_with tac ].

(** C10. A mission whose fields all pass, whose id starts with "M", whose
    crew has a captain or a commander and only active members, and whose
    duration is 365 days or less is accepted whatever the share of
    experienced crew: the threshold rule looks at the crew only when
    [duration_days > 365]. *)
Theorem short_mission_skips_threshold `{Lax} (kw : gmap string value)
    (self : ex2.SpaceMission) :
  ex2.model_fields kw = Pass self ->
  startswith (ex2.mission_id self) "M" = true ->
  (exists m, In m (ex2.crew self) /\ (rank m = captain \/ rank m = commander)) ->
  (forall m, In m (ex2.crew self) -> is_active m = true) ->
  (ex2.duration_days self <= 365)%Z ->
  ex2.validate kw = Valid self.
Proof.
  intros Hfields Hid Hcmd Hact Hdur.
  apply has_commander_iff in Hcmd. apply all_active_iff in Hact.
  unfold ex2.validate, model_validate. rewrite Hfields.
  unfold ex2.validate_rules. cbv zeta.
  rewrite Hid, Hcmd, Hact.
  destruct (Z.gtb_spec (ex2.duration_days self) 365); [lia|]. reflexivity.
Qed.

(** [year_mission]: exactly 365 days, and 1 experienced member of 3. *)
Lemma short_mission_skips_threshold_witness :
  exists self,
    ex2.validate year_mission = Valid self /\ ex2.duration_days self = 365%Z.
Proof.
  eexists. split.
  - apply short_mission_skips_threshold.
    + vm_compute. reflexivity.
    + reflexivity.
    + eexists. split; [left; reflexivity|]. right. reflexivity.
    + intros m [<-|[<-|[<-|[]]]]; reflexivity.
    + cbn. lia.
  - reflexivity.
Defined.

(** ** The experience threshold *)


(** C7. For a mission that reaches the threshold rule (fields pass, id and
    commander rules hold): the test of the program, on floats, is the test
    [percent < 50] on the real quotient (count / total) * 100; on a long
    mission the rule is violated exactly when 50 <= percent fails, and the
    report is then the one rule error that names the rule, with no field
    error; a share of 50 or more passes. In particular a 900-day mission
    with 1 experienced member of 3 gets exactly that report. *)
Theorem experience_threshold `{Lax} (kw : gmap string value)
    (self : ex2.SpaceMission) :
  ex2.model_fields kw = Pass self ->
  startswith (ex2.mission_id self) "M" = true ->
  (exists m, In m (ex2.crew self) /\ (rank m = captain \/ rank m = commander)) ->
  let crew := ex2.crew self in
  (below_half_float (ex2.count_experimented crew) (len crew) = true
     <-> ~ (50 <= ex2.experienced_percent crew)%Q)
  /\
  ((365 < ex2.duration_days self)%Z ->
   ~ (50 <= ex2.experienced_percent crew)%Q ->
   ex2.validate kw = ValidationError [threshold_error])
  /\
  ((365 < ex2.duration_days self)%Z ->
   (50 <= ex2.experienced_percent crew)%Q ->
   (forall m, In m crew -> is_active m = true) ->
   ex2.validate kw = Valid self)
  /\
  (ex2.duration_days self = 900%Z ->
   length crew = 3%nat -> ex2.count_experimented crew = 1%Z ->
   exists report,
     ex2.validate kw = ValidationError report /\
     rule_errors report = [threshold_error] /\
     field_errors report = []).
Proof.
  intros Hfields Hid Hcmd crew.
  pose proof (ex2_crew_length kw self Hfields) as Hlen. fold crew in Hlen.
  apply has_commander_iff in Hcmd. fold crew in Hcmd.
  assert (Hrules : forall b,
    Qle_bool 50 (ex2.experienced_percent crew) = b ->
    (365 < ex2.duration_days self)%Z ->
    ex2.validate_rules self =
    if b then
      raise_if (negb (forallb (fun member => is_active member) crew))
        (ValueError "All crew members must be active") ;;; Return self
    else Raise (ValueError
           "Long missions (> 365 days) need 50%experienced crew (5+ years)")).
  { intros b Hb Hdur. unfold ex2.validate_rules. cbv zeta. fold crew.
    rewrite (ex2_threshold_step _ _ _ Hlen), Hid, Hcmd, Hb.
    apply Z.ltb_lt in Hdur. rewrite Hdur. now destruct b. }
  assert (Hover : (50 <= ex2.experienced_percent crew)%Q ->
                  Qle_bool 50 (ex2.experienced_percent crew) = true)
    by apply Qle_bool_iff.
  assert (Hunder : ~ (50 <= ex2.experienced_percent crew)%Q ->
                   Qle_bool 50 (ex2.experienced_percent crew) = false).
  { intros Hn. destruct (Qle_bool 50 _) eqn:E; [|reflexivity].
    now apply Qle_bool_iff in E. }
  repeat split.
  - intros Hfloat Hq. apply Hover in Hq.
    rewrite below_half_exact in Hfloat;
      [| unfold len; lia | apply count_experimented_bounds].
    unfold below_half_real in Hfloat. fold (ex2.experienced_percent crew) in Hfloat.
    now rewrite Hq in Hfloat.
  - intros Hq. apply Hunder in Hq.
    rewrite below_half_exact; [| unfold len; lia | apply count_experimented_bounds].
    unfold below_half_real. fold (ex2.experienced_percent crew). now rewrite Hq.
  - intros Hdur Hq. unfold ex2.validate, model_validate.
    now rewrite Hfields, (Hrules false (Hunder Hq) Hdur).
  - intros Hdur Hq Hact. apply all_active_iff in Hact.
    unfold ex2.validate, model_validate.
    now rewrite Hfields, (Hrules true (Hover Hq) Hdur), Hact.
  - intros Hdur H3 H1. exists [threshold_error]. repeat split.
    unfold ex2.validate, model_validate. rewrite Hfields.
    rewrite (Hrules false); [reflexivity| |lia].
    unfold ex2.experienced_percent, len. now rewrite H1, H3.
Qed.

(** [green_mission]: 900 days, 1 experienced member of 3. *)
Lemma experience_threshold_witness :
  exists self,
    ex2.model_fields green_mission = Pass self /\
    ex2.count_experimented (ex2.crew self) = 1%Z /\
    ex2.validate green_mission = ValidationError [threshold_error].
Proof.
  eexists. split; [vm_compute; reflexivity|]. split; [reflexivity|].
  eapply (fun self Hf Hid Hc =>
            proj1 (proj2 (experience_threshold green_mission self Hf Hid Hc))).
  - vm_compute. reflexivity.
  - reflexivity.
  - eexists. split; [left; reflexivity|]. right. reflexivity.
  - cbn. lia.
  - intros Hq. apply Qle_bool_iff in Hq. vm_compute in Hq. discriminate.
Defined.

(** ** Division safety *)

Lemma empty_crew_error `{Lax} (kw : gmap string value) :
  kw !! "crew" = Some (VList []) ->
  In {| loc := [Key "crew"]; type := too_short |} (errs (kw @ ex2.f_crew)).
Proof.
  intros Hk. unfold validate_field. cbn [fname ex2.f_crew]. rewrite Hk.
  now left.
Qed.

(** C8. Every input that reaches the rule stage has a crew of at least one
    member, so the division by the crew count in the experienced-crew
    percentage has a non-zero divisor and returns a float; the constructor
    never ends in an uncaught exception; and an empty crew list is answered
    at the field stage ([too_short] at [crew]) with no rule evaluated. *)
Theorem crew_count_never_zero `{Lax} (kw : gmap string value) :
  (forall self, ex2.model_fields kw = Pass self ->
     (1 <= len (ex2.crew self))%Z /\
     exists ratio,
       true_div (ex2.count_experimented (ex2.crew self)) (len (ex2.crew self))
       = Return ratio)
  /\
  (forall e, ex2.validate kw <> Uncaught e)
  /\
  (kw !! "crew" = Some (VList []) ->
   exists errors,
     ex2.validate kw = ValidationError errors /\
     In {| loc := [Key "crew"]; type := too_short |} errors /\
     rule_errors errors = []).
Proof.
  split; [|split].
  - intros self Hfields. apply ex2_crew_length in Hfields. split.
    + unfold len. lia.
    + unfold true_div, len.
      destruct (Z.eqb_spec (Z.of_nat (length (ex2.crew self))) 0); [lia|]. eauto.
  - intros e. unfold ex2.validate, model_validate.
    destruct (ex2.model_fields kw) as [self|es] eqn:Hfields; [|discriminate].
    rewrite ex2_first_violation by now apply (ex2_crew_length kw).
    now destruct (violations ex2.rules self).
  - intros Hk. exists (errs (ex2.model_fields kw)).
    assert (In {| loc := [Key "crew"]; type := too_short |}
              (errs (ex2.model_fields kw))) as Hin.
    { unfold ex2.model_fields. rewrite !errs_ap, !in_app_iff.
      pick_with ltac:(now apply empty_crew_error). }
    split; [|split].
    + eapply field_stage_report, Hin.
    + exact Hin.
    + apply field_level_rule_errors, field_level_ex2.
Qed.

(** The valid mission with its crew list emptied. *)
Lemma crew_count_never_zero_witness :
  exists errors,
    ex2.validate (<["crew" := VList []]> valid_mission) = ValidationError errors /\
    In {| loc := [Key "crew"]; type := too_short |} errors /\
    rule_errors errors = [].
Proof.
  apply (crew_count_never_zero (<["crew" := VList []]> valid_mission)).
  reflexivity.
Defined.

(** ** Validators: what a pass says, and exact inputs *)



Lemma str_validator_Pass_inv mn mx v s :
  str_validator mn mx v = Pass s ->
  v = VStr s /\ lower Nat.le mn (String.length s) /\ upper Nat.le mx (String.length s).
Proof.
  unfold str_validator, lower, upper. destruct v; try discriminate.
  destruct mn as [a|], mx as [b|]; cbn [below above];
    repeat match goal with
      | |- context [Nat.ltb ?x ?y] => destruct (Nat.ltb_spec x y)
      end; try discriminate;
    intros [= ->]; repeat split; intros ? [= <-]; assumption.
Qed.

Lemma str_validator_exact mn mx s :
  lower Nat.le mn (String.length s) -> upper Nat.le mx (String.length s) ->
  str_validator mn mx (VStr s) = Pass s.
Proof.
  unfold str_validator, lower, upper. intros Hlo Hhi.
  destruct mn as [a|], mx as [b|]; cbn [below above];
    repeat match goal with
      | |- context [Nat.ltb ?x ?y] => destruct (Nat.ltb_spec x y)
      end; try reflexivity;
    try (specialize (Hlo _ eq_refl)); try (specialize (Hhi _ eq_refl)); lia.
Qed.

Lemma int_validator_Pass_inv `{Lax} lo hi v n :
  int_validator lo hi v = Pass n -> lower Z.le lo n /\ upper Z.le hi n.
Proof.
  unfold int_validator, lower, upper.
  destruct (match v with VInt n0 => Some n0 | _ => lax_int v end) as [m|];
    [|discriminate].
  destruct lo as [a|], hi as [b|]; cbn [below above];
    repeat match goal with
      | |- context [Z.ltb ?x ?y] => destruct (Z.ltb_spec x y)
      end; try discriminate;
    intros [= ->]; split; intros ? [= <-]; assumption.
Qed.

Lemma int_validator_exact `{Lax} lo hi n :
  lower Z.le lo n -> upper Z.le hi n -> int_validator lo hi (VInt n) = Pass n.
Proof.
  unfold int_validator, lower, upper. intros Hlo Hhi.
  destruct lo as [a|], hi as [b|]; cbn [below above];
    repeat match goal with
      | |- context [Z.ltb ?x ?y] => destruct (Z.ltb_spec x y)
      end; try reflexivity;
    try (specialize (Hlo _ eq_refl)); try (specialize (Hhi _ eq_refl)); lia.
Qed.

Lemma float_validator_Pass_inv `{Lax} lo hi v x :
  float_validator lo hi v = Pass x ->
  lower (fun a b => a <=. b) lo x /\ upper (fun a b => a <=. b) hi x.
Proof.
  unfold float_validator, lower, upper.
  destruct (match v with VFloat f => Some f | _ => lax_float v end) as [y|];
    [|discriminate].
  destruct lo as [a|], hi as [b|];
    repeat match goal with
      | |- context [PrimFloat.leb ?p ?q] => destruct (PrimFloat.leb p q) eqn:?
      end; cbn [negb]; try discriminate;
    intros [= ->]; split; intros ? [= <-]; assumption.
Qed.

Lemma float_validator_exact `{Lax} lo hi x :
  lower (fun a b => a <=. b) lo x -> upper (fun a b => a <=. b) hi x ->
  float_validator lo hi (VFloat x) = Pass x.
Proof.
  unfold float_validator, lower, upper. intros Hlo Hhi.
  destruct lo as [a|], hi as [b|];
    try (rewrite (Hlo _ eq_refl)); try (rewrite (Hhi _ eq_refl)); reflexivity.
Qed.

Lemma nullable_Pass_inv {A} (inner : Validator A) v o :
  nullable inner v = Pass o ->
  o = None \/ exists a, o = Some a /\ inner v = Pass a.
Proof.
  unfold nullable.
  destruct v; try (intros [= <-]; now left);
    (match goal with |- context [inner ?x] => destruct (inner x) eqn:E end);
    try discriminate; intros [= <-]; right; eauto.
Qed.

Lemma model_validate_Valid_inv {A} (fields : Checked A) (after : A -> Raised A) a :
  model_validate fields after = Valid a ->
  exists self, fields = Pass self /\ after self = Return a.
Proof.
  unfold model_validate. destruct fields as [self|]; [|discriminate].
  destruct (after self) as [a'|[msg|]] eqn:E; try discriminate.
  intros [= <-]. eauto.
Qed.

(** ** A record that passed the field stage meets the declared bounds *)

Lemma str_field_bounds kw name (a b : nat) s :
  kw @ Field name Required (str_validator (Some a) (Some b)) = Pass s ->
  (a <= String.length s <= b)%nat.
Proof.
  intros Hv.
  apply (validate_field_Pass (fun s => (a <= String.length s <= b)%nat) _ _ _ Hv).
  - intros v Hp. apply str_validator_Pass_inv in Hp as (_ & Hlo & Hhi).
    split; [now apply Hlo | now apply Hhi].
  - discriminate.
Qed.

Lemma int_field_bounds `{Lax} kw name (a b : Z) n :
  kw @ Field name Required (int_validator (Some a) (Some b)) = Pass n ->
  (a <= n <= b)%Z.
Proof.
  intros Hv.
  apply (validate_field_Pass (fun n => (a <= n <= b)%Z) _ _ _ Hv).
  - intros v Hp. apply int_validator_Pass_inv in Hp as (Hlo & Hhi).
    split; [now apply Hlo | now apply Hhi].
  - discriminate.
Qed.

Lemma float_field_bounds `{Lax} kw name (a b : float) x :
  kw @ Field name Required (float_validator (Some a) (Some b)) = Pass x ->
  a <=. x /\ x <=. b.
Proof.
  intros Hv.
  apply (validate_field_Pass (fun x => a <=. x /\ x <=. b) _ _ _ Hv).
  - intros v Hp. apply float_validator_Pass_inv in Hp as (Hlo & Hhi).
    split; [now apply Hlo | now apply Hhi].
  - discriminate.
Qed.

Lemma optional_str_field_bounds kw name (b : nat) o :
  kw @ Field name (Some None) (nullable (str_validator None (Some b))) = Pass o ->
  at_most b o.
Proof.
  intros Hv.
  apply (validate_field_Pass (at_most b) _ _ _ Hv).
  - intros v Hp s ->. apply nullable_Pass_inv in Hp as [E|(a & [= <-] & Hp)];
      [discriminate|].
    apply str_validator_Pass_inv in Hp as (_ & _ & Hhi). now apply Hhi.
  - intros [= <-] s E. discriminate.
Qed.

(** Reads the bounds of every field off its [kw @ f = Pass v] equation. *)
Ltac fields_bounds :=
  repeat match goal with
    | Hv : _ @ _ = Pass _ |- _ =>
        first [ apply str_field_bounds in Hv
              | apply int_field_bounds in Hv
              | apply float_field_bounds in Hv
              | apply optional_str_field_bounds in Hv
              | clear Hv ]
    end.

Lemma ex0_fields_constraints `{Lax} kw self :
  ex0.model_fields kw = Pass self -> SpaceStation_constraints self.
Proof.
  intros E. unfold ex0.model_fields in E. invert_fields E. fields_bounds.
  unfold SpaceStation_constraints. cbn. tauto.
Qed.

Lemma ex1_fields_constraints `{Lax} kw self :
  ex1.model_fields kw = Pass self -> AlienContact_constraints self.
Proof.
  intros E. unfold ex1.model_fields in E. invert_fields E. fields_bounds.
  unfold AlienContact_constraints. cbn. tauto.
Qed.

Lemma CrewMember_fields_constraints `{Lax} kw m :
  ex2.CrewMember_fields kw = Pass m -> CrewMember_constraints m.
Proof.
  intros E. unfold ex2.CrewMember_fields in E. invert_fields E. fields_bounds.
  unfold CrewMember_constraints. cbn. tauto.
Qed.

Lemma ex2_fields_constraints `{Lax} kw self :
  ex2.model_fields kw = Pass self -> SpaceMission_constraints self.
Proof.
  intros E. pose proof (ex2_crew_length kw self E) as Hlen.
  unfold ex2.model_fields in E. invert_fields E. fields_bounds.
  unfold SpaceMission_constraints. cbn in *. tauto.
Qed.

(** ** No violated rule, as propositions *)

Lemma ex1_no_violation_iff (self : ex1.AlienContact) :
  violations ex1.rules self = [] <-> AlienContact_business_rules self.
Proof.
  unfold ex1.rules, AlienContact_business_rules.
  rewrite !violations_cons, violations_nil. cbv beta.
  destruct (startswith (ex1.contact_id self) "AC");
    destruct (ex1.contact_type self);
    destruct (ex1.is_verified self);
    destruct (Z.leb_spec 3 (ex1.witness_count self));
    destruct (PrimFloat.ltb 7 (ex1.signal_strength self));
    destruct (ex1.message_received self);
    cbn; split; try discriminate; try (intros _; repeat split; congruence);
    intros (H1 & H2 & H3 & H4);
    solve [ discriminate
          | specialize (H2 eq_refl); discriminate
          | specialize (H3 eq_refl); lia
          | now specialize (H4 eq_refl) ].
Qed.

Lemma ex2_no_violation_iff (self : ex2.SpaceMission) :
  violations ex2.rules self = [] <-> SpaceMission_business_rules self.
Proof.
  unfold ex2.rules, SpaceMission_business_rules.
  rewrite !violations_cons, violations_nil. cbv beta.
  rewrite <- has_commander_iff, <- all_active_iff, <- Qle_bool_iff, <- Z.ltb_lt.
  destruct (startswith (ex2.mission_id self) "M");
    destruct (existsb _ (ex2.crew self));
    destruct (365 <? ex2.duration_days self)%Z;
    destruct (Qle_bool 50 (ex2.experienced_percent (ex2.crew self)));
    destruct (forallb _ (ex2.crew self));
    cbn; split; try discriminate; try (intros _; repeat split; congruence);
    intros (H1 & H2 & H3 & H4); try discriminate.
  specialize (H3 eq_refl). discriminate.
Qed.

(** ** Acceptance *)

(** C4. Soundness of acceptance. When every field of the raw input passes
    its check (present or defaulted, coercible, within bounds), with coerced
    values [v1 ... vn], and every cross-field rule holds on the record made
    of these values, the constructor returns [Valid] with exactly that
    record. Stated for [AlienContact] and for [SpaceMission]. *)
Theorem acceptance_sound `{Lax} (kw : gmap string value) :
  (forall id ts lc ct ss dm wc mr iv,
     kw @ ex1.f_contact_id = Pass id ->
     kw @ ex1.f_timestamp = Pass ts ->
     kw @ ex1.f_location = Pass lc ->
     kw @ ex1.f_contact_type = Pass ct ->
     kw @ ex1.f_signal_strength = Pass ss ->
     kw @ ex1.f_duration_minutes = Pass dm ->
     kw @ ex1.f_witness_count = Pass wc ->
     kw @ ex1.f_message_received = Pass mr ->
     kw @ ex1.f_is_verified = Pass iv ->
     let self := ex1.Build_AlienContact id ts lc ct ss dm wc mr iv in
     AlienContact_business_rules self ->
     ex1.validate kw = Valid self)
  /\
  (forall id nm ds ld dd cr st bm,
     kw @ ex2.f_mission_id = Pass id ->
     kw @ ex2.f_mission_name = Pass nm ->
     kw @ ex2.f_destination = Pass ds ->
     kw @ ex2.f_launch_date = Pass ld ->
     kw @ ex2.f_duration_days = Pass dd ->
     kw @ ex2.f_crew = Pass cr ->
     kw @ ex2.f_mission_status = Pass st ->
     kw @ ex2.f_budget_millions = Pass bm ->
     let self := ex2.Build_SpaceMission id nm ds ld dd cr st bm in
     SpaceMission_business_rules self ->
     ex2.validate kw = Valid self).
Proof.
  split; intros.
  - assert (ex1.model_fields kw = Pass self) as Hfields.
    { unfold ex1.model_fields.
      repeat match goal with Hv : kw @ _ = Pass _ |- _ => rewrite Hv; clear Hv end.
      reflexivity. }
    unfold ex1.validate, model_validate. rewrite Hfields, ex1_first_violation.
    now rewrite (proj2 (ex1_no_violation_iff self)).
  - assert (ex2.model_fields kw = Pass self) as Hfields.
    { unfold ex2.model_fields.
      repeat match goal with Hv : kw @ _ = Pass _ |- _ => rewrite Hv; clear Hv end.
      reflexivity. }
    unfold ex2.validate, model_validate.
    rewrite Hfields, ex2_first_violation by now apply (ex2_crew_length kw).
    now rewrite (proj2 (ex2_no_violation_iff self)).
Qed.

(** The valid contact report of the program. *)
Lemma acceptance_sound_witness :
  ex1.validate valid_contact =
  Valid (ex1.Build_AlienContact "AC_2024_001" (iso.midnight (2024, 12, 12)%Z)
           "Area 51, Nevada" radio 8.5%float 45 5
           (Some "Greetings from Zeta Reticuli") false).
Proof.
  apply (proj1 (acceptance_sound valid_contact)); try (vm_compute; reflexivity).
  repeat split; cbn; discriminate.
Defined.

(** C5. Every record a constructor returns meets the declared bounds of
    its class and all of its cross-field rules: for [AlienContact], among
    others, the id starts with "AC", a physical contact is verified, a
    telepathic contact has 3 witnesses or more, and a signal stronger than
    7.0 has a message. Stated for the four classes ([SpaceStation] and
    [CrewMember] declare no rule; the bounds of the members of a mission's
    crew are those of [CrewMember], met by every member the constructor of
    that class returns). *)
Theorem validated_record_invariant `{Lax} (kw : gmap string value) :
  (forall self, ex1.validate kw = Valid self ->
     AlienContact_constraints self /\ AlienContact_business_rules self)
  /\
  (forall self, ex2.validate kw = Valid self ->
     SpaceMission_constraints self /\ SpaceMission_business_rules self)
  /\
  (forall self, ex0.validate kw = Valid self -> SpaceStation_constraints self)
  /\
  (forall m, ex2.CrewMember_validate kw = Valid m -> CrewMember_constraints m).
Proof.
  repeat apply conj; intros self Hvalid;
    apply model_validate_Valid_inv in Hvalid as (self0 & Hfields & Hafter).
  - rewrite ex1_first_violation in Hafter.
    destruct (violations ex1.rules self0) eqn:Hv; [|discriminate].
    injection Hafter as <-. split.
    + now apply (ex1_fields_constraints kw).
    + now apply ex1_no_violation_iff.
  - rewrite ex2_first_violation in Hafter by now apply (ex2_crew_length kw).
    destruct (violations ex2.rules self0) eqn:Hv; [|discriminate].
    injection Hafter as <-. split.
    + now apply (ex2_fields_constraints kw).
    + now apply ex2_no_violation_iff.
  - injection Hafter as <-. now apply (ex0_fields_constraints kw).
  - injection Hafter as <-. now apply (CrewMember_fields_constraints kw).
Qed.

Lemma validated_record_invariant_witness :
  exists self,
    ex1.validate valid_contact = Valid self /\
    AlienContact_constraints self /\ AlienContact_business_rules self.
Proof.
  eexists. split; [vm_compute; reflexivity|].
  apply (proj1 (validated_record_invariant valid_contact)).
  vm_compute. reflexivity.
Defined.

(** C6. The prefix rule is a plain character-prefix test: a record whose
    [contact_id] is "AC2024_001", with no separator after "AC", passes it,
    and with the fields valid and the three other rules met the report is
    accepted. *)
Theorem prefix_without_separator `{Lax} (kw : gmap string value)
    (self : ex1.AlienContact) :
  ex1.model_fields kw = Pass self ->
  ex1.contact_id self = "AC2024_001" ->
  (ex1.contact_type self = physical -> ex1.is_verified self = true) ->
  (ex1.contact_type self = telepathic -> (3 <= ex1.witness_count self)%Z) ->
  (7 <. ex1.signal_strength self -> ex1.message_received self <> None) ->
  startswith (ex1.contact_id self) "AC" = true /\
  ex1.validate kw = Valid self.
Proof.
  intros Hfields Hid H2 H3 H4.
  assert (startswith (ex1.contact_id self) "AC" = true) as H1
    by now rewrite Hid.
  split; [exact H1|].
  unfold ex1.validate, model_validate. rewrite Hfields, ex1_first_violation.
  rewrite (proj2 (ex1_no_violation_iff self)); [reflexivity|].
  repeat split; assumption.
Qed.

(** The second contact report of the program with 5 witnesses in place of
    1: the id "AC2024_001" is kept and the report is accepted. *)
Lemma prefix_without_separator_witness :
  let self :=
    ex1.Build_AlienContact "AC2024_001" (iso.midnight (2024, 12, 12)%Z)
      "Area 51, Nevada" telepathic 8.5%float 45 5
      (Some "Greetings from Zeta Reticuli") false in
  startswith (ex1.contact_id self) "AC" = true /\
  ex1.validate (<["witness_count" := VInt 5]> invalid_contact) = Valid self.
Proof.
  apply prefix_without_separator.
  - vm_compute. reflexivity.
  - reflexivity.
  - discriminate.
  - intros _. cbn. lia.
  - discriminate.
Defined.

(** ** Re-validating the canonical value *)

Lemma validate_field_present {A} kw (f : FieldInfo A) v a :
  kw !! fname f = Some v -> validator f v = Pass a -> kw @ f = Pass a.
Proof. intros Hk Hv. unfold validate_field. now rewrite Hk, Hv. Qed.

Lemma nullable_str_exact mx (o : option string) :
  (forall s, o = Some s -> upper Nat.le mx (String.length s)) ->
  nullable (str_validator None mx)
    (match o with Some s => VStr s | None => VNone end) = Pass o.
Proof.
  intros Hmx. destruct o as [s|]; [|reflexivity]. unfold nullable.
  rewrite str_validator_exact; [reflexivity| |now apply Hmx].
  intros a. discriminate.
Qed.

Ltac bound_holds :=
  unfold lower, upper; intros ? [= <-]; first [assumption | lia].

(** One field of a dumped record: the key is there and holds a value of the
    declared type, within the bounds. *)
Ltac exact_field :=
  eapply validate_field_present;
  [ reflexivity
  | first [ reflexivity
          | apply str_validator_exact; bound_holds
          | apply int_validator_exact; bound_holds
          | apply float_validator_exact; bound_holds
          | apply nullable_str_exact; intros ? ?; unfold upper; intros ? [= <-];
            eauto ] ].

Lemma ex0_dump_fields `{Lax} (self : ex0.SpaceStation) :
  SpaceStation_constraints self ->
  ex0.model_fields (ex0.canonical self) = Pass self.
Proof.
  destruct self as [sid nm cs pl ol lm op nt].
  unfold SpaceStation_constraints, at_most. cbn.
  intros (Hsid & Hnm & Hcs & [Hpl0 Hpl1] & [Hol0 Hol1] & Hnt).
  set (kw := ex0.canonical _). unfold ex0.model_fields.
  assert (kw @ ex0.f_station_id = Pass sid) as -> by exact_field.
  assert (kw @ ex0.f_name = Pass nm) as -> by exact_field.
  assert (kw @ ex0.f_crew_size = Pass cs) as -> by exact_field.
  assert (kw @ ex0.f_power_level = Pass pl) as -> by exact_field.
  assert (kw @ ex0.f_oxygen_level = Pass ol) as -> by exact_field.
  assert (kw @ ex0.f_last_maintenance = Pass lm) as -> by exact_field.
  assert (kw @ ex0.f_is_operational = Pass op) as -> by exact_field.
  assert (kw @ ex0.f_notes = Pass nt) as -> by exact_field.
  reflexivity.
Qed.

Lemma ex1_dump_fields `{Lax} (self : ex1.AlienContact) :
  AlienContact_constraints self ->
  ex1.model_fields (ex1.canonical self) = Pass self.
Proof.
  destruct self as [cid ts lc ct ss dm wc mr iv].
  unfold AlienContact_constraints, at_most. cbn.
  intros (Hcid & Hlc & [Hss0 Hss1] & Hdm & Hwc & Hmr).
  set (kw := ex1.canonical _). unfold ex1.model_fields.
  assert (kw @ ex1.f_contact_id = Pass cid) as -> by exact_field.
  assert (kw @ ex1.f_timestamp = Pass ts) as -> by exact_field.
  assert (kw @ ex1.f_location = Pass lc) as -> by exact_field.
  assert (kw @ ex1.f_contact_type = Pass ct) as -> by exact_field.
  assert (kw @ ex1.f_signal_strength = Pass ss) as -> by exact_field.
  assert (kw @ ex1.f_duration_minutes = Pass dm) as -> by exact_field.
  assert (kw @ ex1.f_witness_count = Pass wc) as -> by exact_field.
  assert (kw @ ex1.f_message_received = Pass mr) as -> by exact_field.
  assert (kw @ ex1.f_is_verified = Pass iv) as -> by exact_field.
  reflexivity.
Qed.

Lemma validate_items_instances `{Lax} (crew : list CrewMember) (i : nat) :
  validate_items ex2.CrewMember_validator (map VCrewMember crew) i = Pass crew.
Proof.
  revert i. induction crew as [|m crew IH]; intros i; [reflexivity|].
  cbn [map validate_items]. now rewrite IH.
Qed.

Lemma crew_validator_exact `{Lax} (crew : list CrewMember) :
  (1 <= length crew <= 12)%nat ->
  list_validator (Some 1%nat) (Some 12%nat) ex2.CrewMember_validator
    (VList (map VCrewMember crew)) = Pass crew.
Proof.
  intros Hlen. unfold list_validator. cbn [above below].
  rewrite length_map, validate_items_instances.
  destruct (Nat.ltb_spec 12 (length crew)); [lia|].
  destruct (Nat.ltb_spec (length crew) 1); [lia|]. reflexivity.
Qed.

Lemma ex2_dump_fields `{Lax} (self : ex2.SpaceMission) :
  SpaceMission_constraints self ->
  ex2.model_fields (ex2.canonical self) = Pass self.
Proof.
  destruct self as [mid nm ds ld dd cr st bm].
  unfold SpaceMission_constraints. cbn.
  intros (Hmid & Hnm & Hds & Hdd & Hcr & [Hbm0 Hbm1]).
  set (kw := ex2.canonical _). unfold ex2.model_fields.
  assert (kw @ ex2.f_mission_id = Pass mid) as -> by exact_field.
  assert (kw @ ex2.f_mission_name = Pass nm) as -> by exact_field.
  assert (kw @ ex2.f_destination = Pass ds) as -> by exact_field.
  assert (kw @ ex2.f_launch_date = Pass ld) as -> by exact_field.
  assert (kw @ ex2.f_duration_days = Pass dd) as -> by exact_field.
  assert (kw @ ex2.f_crew = Pass cr) as ->
    by (eapply validate_field_present;
        [reflexivity | now apply crew_validator_exact]).
  assert (kw @ ex2.f_mission_status = Pass st) as -> by exact_field.
  assert (kw @ ex2.f_budget_millions = Pass bm) as -> by exact_field.
  reflexivity.
Qed.

(** C9. Validation is idempotent on accepted values: when the constructor
    accepts an input and returns a record, the constructor applied to the
    canonical raw value of that record ([canonical]: each field under its
    name, holding the validated value) returns the same record. Stated for
    [SpaceStation], [AlienContact] and [SpaceMission]. *)
Theorem revalidation_idempotent `{Lax} (kw : gmap string value) :
  (forall self, ex0.validate kw = Valid self ->
     ex0.validate (ex0.canonical self) = Valid self)
  /\
  (forall self, ex1.validate kw = Valid self ->
     ex1.validate (ex1.canonical self) = Valid self)
  /\
  (forall self, ex2.validate kw = Valid self ->
     ex2.validate (ex2.canonical self) = Valid self).
Proof.
  repeat apply conj; intros self Hvalid;
    apply model_validate_Valid_inv in Hvalid as (self0 & Hfields & Hafter).
  - injection Hafter as <-.
    unfold ex0.validate. rewrite ex0_dump_fields; [reflexivity|].
    now apply (ex0_fields_constraints kw).
  - pose proof Hafter as Hrules. rewrite ex1_first_violation in Hafter.
    destruct (violations ex1.rules self0); [|discriminate].
    injection Hafter as <-.
    unfold ex1.validate. rewrite ex1_dump_fields.
    + unfold model_validate. now rewrite Hrules.
    + now apply (ex1_fields_constraints kw).
  - pose proof Hafter as Hrules.
    rewrite ex2_first_violation in Hafter by now apply (ex2_crew_length kw).
    destruct (violations ex2.rules self0); [|discriminate].
    injection Hafter as <-.
    unfold ex2.validate. rewrite ex2_dump_fields.
    + unfold model_validate. now rewrite Hrules.
    + now apply (ex2_fields_constraints kw).
Qed.

(** The valid station of the program, built from a date string, and its
    canonical value, which holds the datetime. *)
Lemma revalidation_idempotent_witness :
  exists self,
    ex0.validate valid_station = Valid self /\
    ex0.canonical self !! "last_maintenance"
      = Some (VDatetime (iso.midnight (2024, 2, 29)%Z)) /\
    ex0.validate (ex0.canonical self) = Valid self.
Proof.
  eexists. split; [vm_compute; reflexivity|]. split; [reflexivity|].
  apply (proj1 (revalidation_idempotent valid_station)).
  vm_compute. reflexivity.
Defined.

(** * Further properties of the classes *)

(** ** Enum fields *)

Lemma ContactType_of_value_spec (s : string) (c : ContactType) :
  ex1.ContactType_of_value s = Some c <-> s = ex1.ContactType_value c.
Proof.
  unfold ex1.ContactType_of_value, ex1.ContactType_members. cbn [find].
  split.
  - repeat match goal with
      | |- context [String.eqb ?a s] => destruct (String.eqb_spec a s)
      end; intros [= <-]; subst; reflexivity.
  - intros ->. now destruct c.
Qed.

Lemma Rank_of_value_spec (s : string) (r : Rank) :
  ex2.Rank_of_value s = Some r <-> s = ex2.Rank_value r.
Proof.
  unfold ex2.Rank_of_value, ex2.Rank_members. cbn [find].
  split.
  - repeat match goal with
      | |- context [String.eqb ?a s] => destruct (String.eqb_spec a s)
      end; intros [= <-]; subst; reflexivity.
  - intros ->. now destruct r.
Qed.

(** X1. An enum field takes a string exactly when the string is the value
    of a member (an exact, case-sensitive match), and then yields that
    member; a member passed as such is taken as it is; every other string
    is answered with one [enum] error. For [ContactType] and [Rank]. *)
Theorem enum_field_exact_match (s : string) :
  (forall c,
     enum_validator ex1.ContactType_of_member ex1.ContactType_of_value (VStr s)
       = Pass c <-> s = ex1.ContactType_value c)
  /\
  (forall r,
     enum_validator ex2.Rank_of_member ex2.Rank_of_value (VStr s)
       = Pass r <-> s = ex2.Rank_value r)
  /\
  ((forall c, s <> ex1.ContactType_value c) ->
     enum_validator ex1.ContactType_of_member ex1.ContactType_of_value (VStr s)
       = Fail [line_error enum])
  /\
  ((forall r, s <> ex2.Rank_value r) ->
     enum_validator ex2.Rank_of_member ex2.Rank_of_value (VStr s)
       = Fail [line_error enum])
  /\
  (forall c,
     enum_validator ex1.ContactType_of_member ex1.ContactType_of_value
       (VContactType c) = Pass c /\
     enum_validator ex1.ContactType_of_member ex1.ContactType_of_value
       (VStr (ex1.ContactType_value c)) = Pass c)
  /\
  (forall r,
     enum_validator ex2.Rank_of_member ex2.Rank_of_value (VRank r) = Pass r /\
     enum_validator ex2.Rank_of_member ex2.Rank_of_value
       (VStr (ex2.Rank_value r)) = Pass r).
Proof.
  unfold enum_validator. cbn [ex1.ContactType_of_member ex2.Rank_of_member].
  repeat apply conj.
  - intros c. rewrite <- ContactType_of_value_spec.
    destruct (ex1.ContactType_of_value s); split; congruence.
  - intros r. rewrite <- Rank_of_value_spec.
    destruct (ex2.Rank_of_value s); split; congruence.
  - intros Hno. destruct (ex1.ContactType_of_value s) as [c|] eqn:E; [|reflexivity].
    apply ContactType_of_value_spec in E. now contradiction (Hno c).
  - intros Hno. destruct (ex2.Rank_of_value s) as [r|] eqn:E; [|reflexivity].
    apply Rank_of_value_spec in E. now contradiction (Hno r).
  - intros c. split; [reflexivity|].
    now rewrite (proj2 (ContactType_of_value_spec _ c) eq_refl).
  - intros r. split; [reflexivity|].
    now rewrite (proj2 (Rank_of_value_spec _ r) eq_refl).
Qed.

(** "Radio", with a capital, is the value of no member. *)
Lemma enum_field_exact_match_witness :
  enum_validator ex1.ContactType_of_member ex1.ContactType_of_value (VStr "Radio")
    = Fail [line_error enum].
Proof.
  apply (proj1 (proj2 (proj2 (enum_field_exact_match "Radio")))).
  intros c. destruct c; discriminate.
Defined.

(** ** The shape of a report *)

Lemma proper_Pass {A} (a : A) : proper (Pass a).
Proof. discriminate. Qed.

Lemma proper_ap {A B} (f : Checked (A -> B)) (x : Checked A) :
  proper f -> proper x -> proper (f <*> x).
Proof.
  unfold proper. destruct f as [g|[|e es]], x as [a|[|e' es']]; cbn; congruence.
Qed.

Lemma proper_at_loc {A} l (c : Checked A) : proper c -> proper (at_loc l c).
Proof. unfold proper. destruct c as [a|[|e es]]; cbn; congruence. Qed.

Lemma proper_str mn mx v : proper (str_validator mn mx v).
Proof. unfold proper, str_validator. repeat case_match; discriminate. Qed.

Lemma proper_int `{Lax} lo hi v : proper (int_validator lo hi v).
Proof. unfold proper, int_validator. repeat case_match; discriminate. Qed.

Lemma proper_float `{Lax} lo hi v : proper (float_validator lo hi v).
Proof. unfold proper, float_validator. repeat case_match; discriminate. Qed.

Lemma proper_bool `{Lax} v : proper (bool_validator v).
Proof. unfold proper, bool_validator. repeat case_match; discriminate. Qed.

Lemma proper_datetime `{Lax} v : proper (datetime_validator v).
Proof. unfold proper, datetime_validator. repeat case_match; discriminate. Qed.

Lemma proper_enum {E} (m : value -> option E) (f : string -> option E) v :
  proper (enum_validator m f v).
Proof. unfold proper, enum_validator. repeat case_match; discriminate. Qed.

Lemma proper_nullable {A} (inner : Validator A) v :
  (forall v, proper (inner v)) -> proper (nullable inner v).
Proof.
  intros Hin. unfold proper, nullable.
  destruct v; try discriminate;
    (match goal with |- context [inner ?x] =>
       specialize (Hin x); destruct (inner x) end);
    (discriminate || (intros [= ->]; now apply Hin)).
Qed.

Lemma proper_items {A} (item : Validator A) l i :
  (forall v, proper (item v)) -> proper (validate_items item l i).
Proof.
  intros Hitem. revert i. induction l as [|x l IH]; intros i; cbn [validate_items].
  - apply proper_Pass.
  - apply proper_ap; [apply proper_ap|].
    + apply proper_Pass.
    + apply proper_at_loc, Hitem.
    + apply IH.
Qed.

Lemma proper_list {A} mn mx (item : Validator A) v :
  (forall v, proper (item v)) -> proper (list_validator mn mx item v).
Proof.
  intros Hitem. unfold list_validator.
  destruct v; try discriminate.
  case_match; [discriminate|].
  pose proof (proper_items item l 0 Hitem) as Hl.
  destruct (validate_items item l 0); [|exact Hl].
  case_match; discriminate.
Qed.

Lemma proper_field {A} kw (f : FieldInfo A) :
  (forall v, proper (validator f v)) -> proper (kw @ f).
Proof.
  intros Hv. unfold validate_field.
  destruct (kw !! fname f).
  - now apply proper_at_loc.
  - destruct (default f); discriminate.
Qed.

Lemma proper_CrewMember_fields `{Lax} kw : proper (ex2.CrewMember_fields kw).
Proof.
  unfold ex2.CrewMember_fields.
  repeat apply proper_ap; try apply proper_Pass;
    apply proper_field; intros v; cbn;
    auto using proper_str, proper_int, proper_bool, proper_enum.
Qed.

Lemma proper_CrewMember `{Lax} v : proper (ex2.CrewMember_validator v).
Proof.
  unfold ex2.CrewMember_validator.
  destruct v; try discriminate. apply proper_CrewMember_fields.
Qed.

Lemma proper_ex0 `{Lax} kw : proper (ex0.model_fields kw).
Proof.
  unfold ex0.model_fields.
  repeat apply proper_ap; try apply proper_Pass;
    apply proper_field; intros v; cbn;
    auto using proper_str, proper_int, proper_float, proper_bool,
      proper_datetime, proper_nullable.
Qed.

Lemma proper_ex1 `{Lax} kw : proper (ex1.model_fields kw).
Proof.
  unfold ex1.model_fields.
  repeat apply proper_ap; try apply proper_Pass;
    apply proper_field; intros v; cbn;
    auto using proper_str, proper_int, proper_float, proper_bool,
      proper_datetime, proper_nullable, proper_enum.
Qed.

Lemma proper_ex2 `{Lax} kw : proper (ex2.model_fields kw).
Proof.
  unfold ex2.model_fields.
  repeat apply proper_ap; try apply proper_Pass;
    apply proper_field; intros v; cbn;
    auto using proper_str, proper_int, proper_float, proper_datetime,
      proper_list, proper_CrewMember.
Qed.

Lemma violations_messages {A} (rules : list (string * (A -> bool))) self msg :
  In msg (violations rules self) -> In msg (map fst rules).
Proof.
  unfold violations. intros Hin. apply in_map_iff in Hin as (r & <- & Hr).
  apply in_map. apply list_elem_of_In in Hr.
  apply list_elem_of_filter in Hr as [_ Hr]. now apply list_elem_of_In.
Qed.

Lemma field_errors_all (es : list ErrorDetails) :
  Forall (fun e => is_rule_error e = false) es -> field_errors es = es.
Proof.
  unfold field_errors. induction 1 as [|e es He _ IH]; [reflexivity|].
  rewrite filter_cons. destruct (decide (is_rule_error e = false)); [|congruence].
  now f_equal.
Qed.

(** The report of a class with rules: not empty, and either made of
    field-stage errors only or of one rule error with a message of the
    class. *)
Lemma two_tier_report {A} (fields : Checked A) (after : A -> Raised A)
    (rules : list (string * (A -> bool))) report :
  proper fields -> field_level fields ->
  (forall self, fields = Pass self ->
     after self = match violations rules self with
                  | [] => Return self
                  | msg :: _ => Raise (ValueError msg)
                  end) ->
  model_validate fields after = ValidationError report ->
  report <> [] /\
  ((rule_errors report = [] /\ field_errors report = report /\ fields = Fail report)
   \/ exists msg, In msg (map fst rules)
                  /\ report = [line_error (value_error msg)]).
Proof.
  intros Hproper Hlevel Hafter. unfold model_validate.
  destruct fields as [self|es].
  - rewrite (Hafter self eq_refl).
    destruct (violations rules self) as [|msg rest] eqn:Hv; [discriminate|].
    intros [= <-]. split; [discriminate|]. right. exists msg. split; [|reflexivity].
    apply (violations_messages rules self). rewrite Hv. now left.
  - intros [= <-]. split; [exact (fun E => Hproper (f_equal Fail E))|]. left.
    split; [now apply (field_level_rule_errors (@Fail A es))|].
    split; [|reflexivity].
    now apply field_errors_all.
Qed.

(** X2. The two-tier shape of every report. A report of [AlienContact] or
    [SpaceMission] is never empty and never mixes the two stages: it holds
    field-stage errors only, or it is exactly one rule error whose message
    is one of the messages of [validate_rules]. A report of [SpaceStation],
    which declares no rule, holds field-stage errors only. The constructors
    of [SpaceStation] and [AlienContact] never end in an uncaught
    exception. *)
Theorem report_two_tier `{Lax} (kw : gmap string value) (report : list ErrorDetails) :
  (ex1.validate kw = ValidationError report ->
   report <> [] /\
   ((rule_errors report = [] /\ field_errors report = report)
    \/ exists msg,
         In msg [ "Contact ID must start with AC";
                  "Physical contact reports must be verified";
                  "Telepathic contact requires at least 3 witnesses";
                  "Strong signals (> 7.0) should include received messages" ]
         /\ report = [line_error (value_error msg)]))
  /\
  (ex2.validate kw = ValidationError report ->
   report <> [] /\
   ((rule_errors report = [] /\ field_errors report = report)
    \/ exists msg,
         In msg [ "Mission ID must start with 'M'";
                  "Mission must have at least one Commander or Captain";
                  "Long missions (> 365 days) need 50%experienced crew (5+ years)";
                  "All crew members must be active" ]
         /\ report = [line_error (value_error msg)]))
  /\
  (ex0.validate kw = ValidationError report ->
   report <> [] /\ rule_errors report = [] /\ field_errors report = report)
  /\
  (forall e, ex1.validate kw <> Uncaught e)
  /\
  (forall e, ex0.validate kw <> Uncaught e).
Proof.
  repeat apply conj.
  - intros Hr.
    apply (two_tier_report _ _ ex1.rules) in Hr as [Hne [(H1 & H2 & _)|Hmsg]];
      auto using proper_ex1, field_level_ex1.
    intros self _. apply ex1_first_violation.
  - intros Hr.
    apply (two_tier_report _ _ ex2.rules) in Hr as [Hne [(H1 & H2 & _)|Hmsg]];
      auto using proper_ex2, field_level_ex2.
    intros self Hf. apply ex2_first_violation. now apply (ex2_crew_length kw).
  - intros Hr.
    apply (two_tier_report _ _ []) in Hr as [Hne [(H1 & H2 & _)|(msg & [] & _)]];
      auto using proper_ex0, field_level_ex0.
  - intros e. unfold ex1.validate, model_validate.
    destruct (ex1.model_fields kw) as [self|]; [|discriminate].
    rewrite ex1_first_violation. now destruct (violations ex1.rules self).
  - intros e. unfold ex0.validate, model_validate.
    now destruct (ex0.model_fields kw).
Qed.

Lemma report_two_tier_witness :
  [ {| loc := [Key "crew_size"]; type := less_than_equal |} ] <> [] /\
  rule_errors [ {| loc := [Key "crew_size"]; type := less_than_equal |} ] = [] /\
  field_errors [ {| loc := [Key "crew_size"]; type := less_than_equal |} ]
    = [ {| loc := [Key "crew_size"]; type := less_than_equal |} ].
Proof.
  apply (proj1 (proj2 (proj2 (report_two_tier invalid_station _)))).
  vm_compute. reflexivity.
Defined.

(** ** The order of a field-stage report *)

Lemma at_most_one_str mn mx v : at_most_one (str_validator mn mx v).
Proof. unfold at_most_one, str_validator. repeat case_match; cbn; lia. Qed.

Lemma at_most_one_int `{Lax} lo hi v : at_most_one (int_validator lo hi v).
Proof. unfold at_most_one, int_validator. repeat case_match; cbn; lia. Qed.

Lemma at_most_one_float `{Lax} lo hi v : at_most_one (float_validator lo hi v).
Proof. unfold at_most_one, float_validator. repeat case_match; cbn; lia. Qed.

Lemma at_most_one_bool `{Lax} v : at_most_one (bool_validator v).
Proof. unfold at_most_one, bool_validator. repeat case_match; cbn; lia. Qed.

Lemma at_most_one_datetime `{Lax} v : at_most_one (datetime_validator v).
Proof. unfold at_most_one, datetime_validator. repeat case_match; cbn; lia. Qed.

Lemma at_most_one_enum {E} (m : value -> option E) (f : string -> option E) v :
  at_most_one (enum_validator m f v).
Proof. unfold at_most_one, enum_validator. repeat case_match; cbn; lia. Qed.

Lemma at_most_one_nullable {A} (inner : Validator A) v :
  (forall v, at_most_one (inner v)) -> at_most_one (nullable inner v).
Proof.
  intros Hin. unfold at_most_one, nullable.
  destruct v; try (cbn; lia);
    (match goal with |- context [inner ?x] =>
       specialize (Hin x); destruct (inner x) end);
    (cbn; lia) || exact Hin.
Qed.

(** A field with a scalar validator adds nothing or its own path to the
    paths of the report. *)
Lemma field_paths_sublist {A} kw (f : FieldInfo A) :
  (forall v, flat (validator f v)) ->
  (forall v, at_most_one (validator f v)) ->
  sublist (map loc (errs (kw @ f))) [[Key (fname f)]].
Proof.
  intros Hflat Hone. unfold validate_field.
  destruct (kw !! fname f) as [v|].
  - rewrite errs_at_loc. specialize (Hflat v). specialize (Hone v).
    unfold flat, at_most_one in *.
    destruct (errs (validator f v)) as [|e [|e' es]]; cbn in *; [|  |lia].
    + apply sublist_nil_l.
    + apply Forall_cons in Hflat as [-> _]. reflexivity.
  - destruct (default f); cbn; [apply sublist_nil_l|reflexivity].
Qed.

Lemma ex1_reports_errs `{Lax} kw :
  errs (ex1.model_fields kw) = concat (map snd (ex1.field_reports kw)).
Proof.
  unfold ex1.model_fields, ex1.field_reports, report_of.
  rewrite !errs_ap. cbn [errs map snd concat]. rewrite app_nil_r.
  now rewrite <- !app_assoc.
Qed.

Ltac paths_in_order :=
  rewrite !map_app;
  repeat (apply (sublist_app _ [_]);
          [ apply field_paths_sublist; intros v; cbn;
            auto using flat_str, flat_int, flat_float, flat_bool, flat_datetime,
              flat_enum, flat_nullable, at_most_one_str, at_most_one_int,
              at_most_one_float, at_most_one_bool, at_most_one_datetime,
              at_most_one_enum, at_most_one_nullable | ]);
  reflexivity.

Lemma ex0_paths_in_order `{Lax} kw :
  sublist (map loc (errs (ex0.model_fields kw)))
    (paths [ "station_id"; "name"; "crew_size"; "power_level"; "oxygen_level";
             "last_maintenance"; "is_operational"; "notes" ]).
Proof.
  rewrite ex0_reports_errs. unfold ex0.field_reports, report_of.
  cbn [map snd concat paths]. paths_in_order.
Qed.

Lemma ex1_paths_in_order `{Lax} kw :
  sublist (map loc (errs (ex1.model_fields kw)))
    (paths [ "contact_id"; "timestamp"; "location"; "contact_type";
             "signal_strength"; "duration_minutes"; "witness_count";
             "message_received"; "is_verified" ]).
Proof.
  rewrite ex1_reports_errs. unfold ex1.field_reports, report_of.
  cbn [map snd concat paths]. paths_in_order.
Qed.

(** X3. The field errors of a report come in declaration order, one per
    field at most: the paths of the field errors of a [SpaceStation] or
    [AlienContact] report form a subsequence of the paths of the declared
    fields. *)
Theorem field_errors_in_declaration_order `{Lax} (kw : gmap string value)
    (report : list ErrorDetails) :
  (ex0.validate kw = ValidationError report ->
   sublist (map loc report)
     (paths [ "station_id"; "name"; "crew_size"; "power_level"; "oxygen_level";
              "last_maintenance"; "is_operational"; "notes" ]))
  /\
  (ex1.validate kw = ValidationError report ->
   sublist (map loc (field_errors report))
     (paths [ "contact_id"; "timestamp"; "location"; "contact_type";
              "signal_strength"; "duration_minutes"; "witness_count";
              "message_received"; "is_verified" ])).
Proof.
  split; intros Hr.
  - apply (two_tier_report _ _ []) in Hr as [_ [(_ & _ & Hf)|(msg & [] & _)]];
      auto using proper_ex0, field_level_ex0.
    pose proof (ex0_paths_in_order kw) as Hs. now rewrite Hf in Hs.
  - apply (two_tier_report _ _ ex1.rules) in Hr as [_ [(_ & -> & Hf)|(msg & _ & ->)]];
      auto using proper_ex1, field_level_ex1.
    + pose proof (ex1_paths_in_order kw) as Hs. now rewrite Hf in Hs.
    + apply sublist_nil_l.
    + intros self _. apply ex1_first_violation.
Qed.

Lemma field_errors_in_declaration_order_witness :
  sublist [ [Key "crew_size"]; [Key "power_level"] ]
    (paths [ "station_id"; "name"; "crew_size"; "power_level"; "oxygen_level";
             "last_maintenance"; "is_operational"; "notes" ]).
Proof.
  apply (proj1 (field_errors_in_declaration_order overloaded_station
           [ {| loc := [Key "crew_size"]; type := less_than_equal |};
             {| loc := [Key "power_level"]; type := less_than_equal |} ])).
  vm_compute. reflexivity.
Defined.

(** ** Defaults and keys *)

Lemma validate_field_absent {A} kw (f : FieldInfo A) d :
  kw !! fname f = None -> default f = Some d -> kw @ f = Pass d.
Proof. intros Hk Hd. unfold validate_field. now rewrite Hk, Hd. Qed.

Lemma validate_field_present_inv {A} kw (f : FieldInfo A) v a :
  kw !! fname f = Some v -> kw @ f = Pass a -> validator f v = Pass a.
Proof.
  intros Hk. unfold validate_field. rewrite Hk.
  destruct (validator f v); cbn; congruence.
Qed.

Lemma validate_field_insert_ne {A} kw (f : FieldInfo A) k v :
  k <> fname f -> (<[k := v]> kw) @ f = kw @ f.
Proof. intros Hk. unfold validate_field. now rewrite lookup_insert_ne. Qed.

Lemma validate_field_insert {A} kw (f : FieldInfo A) v :
  (<[fname f := v]> kw) @ f = at_loc (Key (fname f)) (validator f v).
Proof. unfold validate_field. now rewrite lookup_insert_eq. Qed.

(** X4. The default of [is_verified] is [False], so a physical contact
    report given without that key is never accepted, whatever its other
    fields. *)
Theorem unverified_physical_never_accepted `{Lax} (kw : gmap string value)
    (v : value) :
  kw !! "is_verified" = None ->
  kw !! "contact_type" = Some v ->
  v = VContactType physical \/ v = VStr "physical" ->
  forall self, ex1.validate kw <> Valid self.
Proof.
  intros Hiv Hct Hv self Hvalid.
  apply model_validate_Valid_inv in Hvalid as (self0 & Hfields & Hafter).
  rewrite ex1_first_violation in Hafter.
  destruct (violations ex1.rules self0) eqn:Hno; [|discriminate].
  apply ex1_no_violation_iff in Hno as (_ & Hphys & _).
  unfold ex1.model_fields in Hfields. invert_fields Hfields. cbn in Hphys.
  match goal with Hx : kw @ ex1.f_is_verified = Pass ?iv |- _ =>
    rewrite (validate_field_absent kw ex1.f_is_verified false Hiv eq_refl) in Hx;
    injection Hx as <- end.
  match goal with Hx : kw @ ex1.f_contact_type = Pass ?ct |- _ =>
    apply (validate_field_present_inv kw ex1.f_contact_type v _ Hct) in Hx;
    destruct Hv as [-> | ->]; injection Hx as <- end;
    now specialize (Hphys eq_refl).
Qed.

(** The valid contact report of the program, made physical. *)
Lemma unverified_physical_never_accepted_witness :
  <["contact_type" := VStr "physical"]> valid_contact !! "is_verified" = None /\
  (forall self,
     ex1.validate (<["contact_type" := VStr "physical"]> valid_contact)
     <> Valid self).
Proof.
  split; [reflexivity|].
  apply (unverified_physical_never_accepted _ (VStr "physical")).
  - reflexivity.
  - reflexivity.
  - now right.
Defined.

(** X5. A field left out takes its declared default in every accepted
    record: [is_operational] is [True] and [notes] is [None] for a station,
    [message_received] is [None] and [is_verified] is [False] for a contact
    report, [mission_status] is "planned" for a mission, [is_active] is
    [True] for a crew member; and passing [None] for an optional string is
    the same as leaving it out. *)
Theorem defaults_apply `{Lax} (kw : gmap string value) :
  (forall self, ex0.validate kw = Valid self ->
     (kw !! "is_operational" = None -> ex0.is_operational self = true) /\
     (kw !! "notes" = None -> ex0.notes self = None))
  /\
  (forall self, ex1.validate kw = Valid self ->
     (kw !! "message_received" = None -> ex1.message_received self = None) /\
     (kw !! "is_verified" = None -> ex1.is_verified self = false))
  /\
  (forall self, ex2.validate kw = Valid self ->
     kw !! "mission_status" = None -> ex2.mission_status self = "planned")
  /\
  (forall m, ex2.CrewMember_validate kw = Valid m ->
     kw !! "is_active" = None -> is_active m = true)
  /\
  (kw !! "notes" = None ->
     ex0.validate (<["notes" := VNone]> kw) = ex0.validate kw)
  /\
  (kw !! "message_received" = None ->
     ex1.validate (<["message_received" := VNone]> kw) = ex1.validate kw).
Proof.
  repeat apply conj.
  - intros self Hvalid.
    apply model_validate_Valid_inv in Hvalid as (self0 & Hfields & [= <-]).
    unfold ex0.model_fields in Hfields. invert_fields Hfields. cbn.
    split; intros Hk.
    + match goal with Hx : kw @ ex0.f_is_operational = Pass _ |- _ =>
        rewrite (validate_field_absent kw ex0.f_is_operational true Hk eq_refl) in Hx;
        now injection Hx end.
    + match goal with Hx : kw @ ex0.f_notes = Pass _ |- _ =>
        rewrite (validate_field_absent kw ex0.f_notes None Hk eq_refl) in Hx;
        now injection Hx end.
  - intros self Hvalid.
    apply model_validate_Valid_inv in Hvalid as (self0 & Hfields & Hafter).
    rewrite ex1_first_violation in Hafter.
    destruct (violations ex1.rules self0); [|discriminate]. injection Hafter as <-.
    unfold ex1.model_fields in Hfields. invert_fields Hfields. cbn.
    split; intros Hk.
    + match goal with Hx : kw @ ex1.f_message_received = Pass _ |- _ =>
        rewrite (validate_field_absent kw ex1.f_message_received None Hk eq_refl) in Hx;
        now injection Hx end.
    + match goal with Hx : kw @ ex1.f_is_verified = Pass _ |- _ =>
        rewrite (validate_field_absent kw ex1.f_is_verified false Hk eq_refl) in Hx;
        now injection Hx end.
  - intros self Hvalid Hk.
    apply model_validate_Valid_inv in Hvalid as (self0 & Hfields & Hafter).
    rewrite ex2_first_violation in Hafter by now apply (ex2_crew_length kw).
    destruct (violations ex2.rules self0); [|discriminate]. injection Hafter as <-.
    unfold ex2.model_fields in Hfields. invert_fields Hfields. cbn.
    match goal with Hx : kw @ ex2.f_mission_status = Pass _ |- _ =>
      rewrite (validate_field_absent kw ex2.f_mission_status "planned" Hk eq_refl) in Hx;
      now injection Hx end.
  - intros m Hvalid Hk.
    apply model_validate_Valid_inv in Hvalid as (m0 & Hfields & [= <-]).
    unfold ex2.CrewMember_fields in Hfields. invert_fields Hfields. cbn.
    match goal with Hx : kw @ ex2.f_is_active = Pass _ |- _ =>
      rewrite (validate_field_absent kw ex2.f_is_active true Hk eq_refl) in Hx;
      now injection Hx end.
  - intros Hk. unfold ex0.validate, ex0.model_fields. f_equal.
    rewrite !validate_field_insert_ne by discriminate.
    rewrite (validate_field_insert kw ex0.f_notes).
    now rewrite (validate_field_absent kw ex0.f_notes None Hk eq_refl).
  - intros Hk. unfold ex1.validate, ex1.model_fields. f_equal.
    rewrite !validate_field_insert_ne by discriminate.
    rewrite (validate_field_insert_ne kw ex1.f_is_verified) by discriminate.
    rewrite (validate_field_insert kw ex1.f_message_received).
    now rewrite (validate_field_absent kw ex1.f_message_received None Hk eq_refl).
Qed.

(** The valid station of the program has neither key. *)
Lemma defaults_apply_witness :
  exists self,
    ex0.validate valid_station = Valid self /\
    ex0.is_operational self = true /\ ex0.notes self = None.
Proof.
  eexists. split; [vm_compute; reflexivity|].
  assert (ex0.validate valid_station = Valid _) as Hv by (vm_compute; reflexivity).
  destruct (proj1 (defaults_apply valid_station) _ Hv) as [H1 H2].
  split; [now apply H1 | now apply H2].
Defined.

(** X6. Keys that name no declared field are ignored: adding one to the
    raw input changes nothing in the outcome, for the three classes. *)
Theorem undeclared_keys_ignored `{Lax} (kw : gmap string value) (k : string)
    (v : value) :
  (~ In k [ "station_id"; "name"; "crew_size"; "power_level"; "oxygen_level";
            "last_maintenance"; "is_operational"; "notes" ] ->
   ex0.validate (<[k := v]> kw) = ex0.validate kw)
  /\
  (~ In k [ "contact_id"; "timestamp"; "location"; "contact_type";
            "signal_strength"; "duration_minutes"; "witness_count";
            "message_received"; "is_verified" ] ->
   ex1.validate (<[k := v]> kw) = ex1.validate kw)
  /\
  (~ In k [ "mission_id"; "mission_name"; "destination"; "launch_date";
            "duration_days"; "crew"; "mission_status"; "budget_millions" ] ->
   ex2.validate (<[k := v]> kw) = ex2.validate kw).
Proof.
  repeat apply conj; intros Hk.
  - unfold ex0.validate, ex0.model_fields.
    now rewrite !validate_field_insert_ne by (intros ->; apply Hk; cbn; auto 20).
  - unfold ex1.validate, ex1.model_fields.
    now rewrite !validate_field_insert_ne by (intros ->; apply Hk; cbn; auto 20).
  - unfold ex2.validate, ex2.model_fields.
    now rewrite !validate_field_insert_ne by (intros ->; apply Hk; cbn; auto 20).
Qed.

Lemma undeclared_keys_ignored_witness :
  ex0.validate (<["callsign" := VStr "Alpha"]> valid_station)
  = ex0.validate valid_station.
Proof.
  apply (proj1 (undeclared_keys_ignored valid_station "callsign" (VStr "Alpha"))).
  cbn. intros H. repeat (destruct H as [H|H]; [discriminate|]). exact H.
Defined.

(** ** The crew of a mission *)

Lemma long_crew_error `{Lax} (kw : gmap string value) l :
  kw !! "crew" = Some (VList l) -> (12 < length l)%nat ->
  In {| loc := [Key "crew"]; type := too_long |} (errs (kw @ ex2.f_crew)).
Proof.
  intros Hk Hlen. unfold validate_field, ex2.f_crew. cbn [fname validator].
  rewrite Hk. unfold list_validator. cbn [above].
  apply Nat.ltb_lt in Hlen. rewrite Hlen. now left.
Qed.

(** X7. A crew list of more than 12 entries is answered at the field stage
    with [too_long] at [crew], and no rule is evaluated. *)
Theorem crew_too_long `{Lax} (kw : gmap string value) (l : list value) :
  kw !! "crew" = Some (VList l) -> (12 < length l)%nat ->
  exists errors,
    ex2.validate kw = ValidationError errors /\
    In {| loc := [Key "crew"]; type := too_long |} errors /\
    rule_errors errors = [].
Proof.
  intros Hk Hlen. exists (errs (ex2.model_fields kw)).
  assert (In {| loc := [Key "crew"]; type := too_long |}
            (errs (ex2.model_fields kw))) as Hin.
  { unfold ex2.model_fields. rewrite !errs_ap, !in_app_iff.
    pick_with ltac:(now apply (long_crew_error kw l)). }
  split; [|split].
  - eapply field_stage_report, Hin.
  - exact Hin.
  - apply field_level_rule_errors, field_level_ex2.
Qed.

Lemma crew_too_long_witness :
  exists errors,
    ex2.validate (mission (repeat (VDict sarah) 13)) = ValidationError errors /\
    In {| loc := [Key "crew"]; type := too_long |} errors /\
    rule_errors errors = [].
Proof.
  apply (crew_too_long _ (repeat (VDict sarah) 13)).
  - reflexivity.
  - cbn. lia.
Defined.

Lemma validate_items_dicts `{Lax} (ds : list (gmap string value))
    (ms : list CrewMember) (i : nat) :
  Forall2 (fun d m => ex2.CrewMember_validate d = Valid m) ds ms ->
  validate_items ex2.CrewMember_validator (map VDict ds) i = Pass ms.
Proof.
  intros Hall. revert i. induction Hall as [|d m ds ms Hd _ IH]; intros i;
    [reflexivity|].
  cbn [map validate_items]. rewrite IH.
  apply model_validate_Valid_inv in Hd as (m0 & Hf & [= <-]).
  cbn [ex2.CrewMember_validator]. now rewrite Hf.
Qed.

Lemma ex2_fields_with_crew `{Lax} (kw : gmap string value) (v : value) :
  ex2.model_fields (<["crew" := v]> kw) =
  Pass ex2.Build_SpaceMission
    <*> kw @ ex2.f_mission_id
    <*> kw @ ex2.f_mission_name
    <*> kw @ ex2.f_destination
    <*> kw @ ex2.f_launch_date
    <*> kw @ ex2.f_duration_days
    <*> at_loc (Key "crew") (validator ex2.f_crew v)
    <*> kw @ ex2.f_mission_status
    <*> kw @ ex2.f_budget_millions.
Proof.
  unfold ex2.model_fields.
  rewrite !validate_field_insert_ne by discriminate.
  rewrite (validate_field_insert_ne _ ex2.f_mission_status) by discriminate.
  rewrite (validate_field_insert_ne _ ex2.f_budget_millions) by discriminate.
  now rewrite (validate_field_insert _ ex2.f_crew).
Qed.

(** X8. A mission takes a crew member as a dict or as the instance the
    [CrewMember] constructor builds from that dict, with the same outcome:
    when each dict of a list is accepted by [CrewMember], the mission built
    on the dicts and the mission built on the instances end alike. *)
Theorem crew_dicts_or_instances `{Lax} (kw : gmap string value)
    (ds : list (gmap string value)) (ms : list CrewMember) :
  Forall2 (fun d m => ex2.CrewMember_validate d = Valid m) ds ms ->
  ex2.validate (<["crew" := VList (map VDict ds)]> kw)
  = ex2.validate (<["crew" := VList (map VCrewMember ms)]> kw).
Proof.
  intros Hall. unfold ex2.validate. rewrite !ex2_fields_with_crew.
  unfold ex2.f_crew. cbn [validator]. unfold list_validator.
  rewrite !length_map, (validate_items_dicts ds ms 0 Hall),
    validate_items_instances.
  now rewrite (Forall2_length _ _ _ Hall).
Qed.

(** The crew of the program, as dicts and as instances. *)
Lemma crew_dicts_or_instances_witness :
  exists ms,
    length ms = 3%nat /\
    ex2.validate (<["crew" := VList (map VDict [sarah; john; alice])]> valid_mission)
    = ex2.validate (<["crew" := VList (map VCrewMember ms)]> valid_mission).
Proof.
  eexists. split; [|apply crew_dicts_or_instances].
  2:{ repeat (econstructor; [vm_compute; reflexivity|]). constructor. }
  reflexivity.
Defined.

(** X9. One inactive member is enough, and the count does not matter: a
    mission that passes the field stage and the first three rules, with an
    inactive member in its crew, is answered with exactly one rule error,
    "All crew members must be active". *)
Theorem inactive_member_one_error `{Lax} (kw : gmap string value)
    (self : ex2.SpaceMission) :
  ex2.model_fields kw = Pass self ->
  startswith (ex2.mission_id self) "M" = true ->
  (exists m, In m (ex2.crew self) /\ (rank m = captain \/ rank m = commander)) ->
  ((365 < ex2.duration_days self)%Z ->
   (50 <= ex2.experienced_percent (ex2.crew self))%Q) ->
  (exists m, In m (ex2.crew self) /\ is_active m = false) ->
  ex2.validate kw =
  ValidationError [line_error (value_error "All crew members must be active")].
Proof.
  intros Hfields Hid Hcmd Hexp (m & Hin & Hm).
  apply has_commander_iff in Hcmd.
  assert (forallb (fun member => is_active member) (ex2.crew self) = false) as Hact.
  { destruct (forallb _ (ex2.crew self)) eqn:E; [|reflexivity].
    rewrite forallb_forall in E. specialize (E m Hin). congruence. }
  assert (implb (365 <? ex2.duration_days self)%Z
            (Qle_bool 50 (ex2.experienced_percent (ex2.crew self))) = true) as Hthr.
  { destruct (Z.ltb_spec 365 (ex2.duration_days self)); [|reflexivity].
    cbn. now apply Qle_bool_iff, Hexp. }
  unfold ex2.validate, model_validate.
  rewrite Hfields, ex2_first_violation by now apply (ex2_crew_length kw).
  unfold ex2.rules. rewrite !violations_cons, violations_nil. cbv beta.
  now rewrite Hid, Hcmd, Hthr, Hact.
Qed.

(** The valid mission of the program with two of its three members set
    inactive. *)
Lemma inactive_member_one_error_witness :
  ex2.validate
    (mission [VDict sarah; VDict (<["is_active" := VBool false]> john);
              VDict (<["is_active" := VBool false]> alice)]) =
  ValidationError [line_error (value_error "All crew members must be active")].
Proof.
  eapply inactive_member_one_error.
  - vm_compute. reflexivity.
  - reflexivity.
  - eexists. split; [left; reflexivity|]. right. reflexivity.
  - intros _. apply Qle_bool_iff. vm_compute. reflexivity.
  - eexists. split; [right; left; reflexivity|]. reflexivity.
Defined.

(** ** Counting the experienced members *)

Lemma count_experimented_filter (crew : list CrewMember) :
  ex2.count_experimented crew = Z.of_nat (length (experienced crew)).
Proof.
  unfold ex2.count_experimented, experienced.
  assert (G : forall acc,
    fold_left
      (fun experimented member =>
         if (years_experience member >=? 5)%Z then (experimented + 1)%Z
         else experimented) crew acc
    = (acc + Z.of_nat
               (length (List.filter (fun m => (5 <=? years_experience m)%Z) crew)))%Z).
  { induction crew as [|m crew IH]; intros acc; cbn [fold_left List.filter].
    - cbn. lia.
    - rewrite IH, Z.geb_leb.
      destruct (5 <=? years_experience m)%Z; cbn [length]; lia. }
  now rewrite G.
Qed.

Lemma below_half_int_table :
  forallb (fun n =>
    forallb (fun c =>
      Bool.eqb (below_half_float (Z.of_nat c) (Z.of_nat n))
               (2 * Z.of_nat c <? Z.of_nat n)%Z)
      (seq 0 (S n)))
    (seq 1 12) = true.
Proof. vm_compute. reflexivity. Qed.

Lemma below_half_int (c n : nat) :
  (1 <= n <= 12)%nat -> (c <= n)%nat ->
  below_half_float (Z.of_nat c) (Z.of_nat n) = (2 * c <? n)%nat.
Proof.
  intros Hn Hc.
  pose proof below_half_int_table as T.
  rewrite forallb_forall in T.
  assert (In n (seq 1 12)) as Hin by (apply in_seq; lia).
  specialize (T _ Hin). rewrite forallb_forall in T.
  assert (In c (seq 0 (S n))) as Hic by (apply in_seq; lia).
  apply T, Bool.eqb_prop in Hic. rewrite Hic.
  destruct (Z.ltb_spec (2 * Z.of_nat c) (Z.of_nat n)),
    (Nat.ltb_spec (2 * c) n); (reflexivity || lia).
Qed.

Lemma experienced_length (crew : list CrewMember) :
  (length (experienced crew) <= length crew)%nat.
Proof. apply List.filter_length_le. Qed.

(** X10. "Half the crew", in whole numbers. The loop of [validate_rules]
    counts the members with five years of experience or more, and a long
    mission (more than 365 days) that meets the three other rules is
    accepted exactly when twice that count reaches the size of the crew. *)
Theorem long_mission_needs_half `{Lax} (kw : gmap string value)
    (self : ex2.SpaceMission) :
  ex2.model_fields kw = Pass self ->
  startswith (ex2.mission_id self) "M" = true ->
  (exists m, In m (ex2.crew self) /\ (rank m = captain \/ rank m = commander)) ->
  (forall m, In m (ex2.crew self) -> is_active m = true) ->
  (365 < ex2.duration_days self)%Z ->
  ex2.count_experimented (ex2.crew self)
    = Z.of_nat (length (experienced (ex2.crew self)))
  /\
  (ex2.validate kw = Valid self <->
   (length (ex2.crew self) <= 2 * length (experienced (ex2.crew self)))%nat).
Proof.
  intros Hfields Hid Hcmd Hact Hdur.
  split; [apply count_experimented_filter|].
  pose proof (ex2_crew_length kw self Hfields) as Hlen.
  apply has_commander_iff in Hcmd. apply all_active_iff in Hact.
  unfold ex2.validate, model_validate. rewrite Hfields.
  unfold ex2.validate_rules. cbv zeta. rewrite Hid, Hcmd, Hact.
  apply Z.gtb_lt in Hdur. rewrite Hdur. unfold true_div, len.
  destruct (Z.eqb_spec (Z.of_nat (length (ex2.crew self))) 0); [lia|].
  cbn [raise_if negb bind_raised].
  change (PrimFloat.ltb _ _)
    with (below_half_float (ex2.count_experimented (ex2.crew self))
            (Z.of_nat (length (ex2.crew self)))).
  rewrite count_experimented_filter,
    below_half_int by (auto using experienced_length).
  destruct (Nat.ltb_spec (2 * length (experienced (ex2.crew self)))
              (length (ex2.crew self))); cbn; split; (discriminate || lia || trivial).
Qed.

(** The valid mission of the program: 2 experienced members of 3. *)
Lemma long_mission_needs_half_witness :
  exists self,
    ex2.model_fields valid_mission = Pass self /\
    length (experienced (ex2.crew self)) = 2%nat /\
    ex2.validate valid_mission = Valid self.
Proof.
  eexists. split; [vm_compute; reflexivity|]. split; [reflexivity|].
  eapply (fun self Hf Hid Hc Ha Hd =>
            proj2 (proj2 (long_mission_needs_half valid_mission self Hf Hid Hc Ha Hd))).
  - vm_compute. reflexivity.
  - reflexivity.
  - eexists. split; [left; reflexivity|]. right. reflexivity.
  - intros m [<-|[<-|[<-|[]]]]; reflexivity.
  - cbn. lia.
  - cbn. lia.
Defined.

(** ** The order of the crew *)

Lemma existsb_Permutation {A} (f : A -> bool) (l l' : list A) :
  Permutation l l' -> existsb f l = existsb f l'.
Proof.
  induction 1 as [|x l l' _ IH|x y l|l l' l'' _ IH1 _ IH2]; cbn.
  - reflexivity.
  - now rewrite IH.
  - destruct (f x), (f y); reflexivity.
  - congruence.
Qed.

Lemma forallb_Permutation {A} (f : A -> bool) (l l' : list A) :
  Permutation l l' -> forallb f l = forallb f l'.
Proof.
  induction 1 as [|x l l' _ IH|x y l|l l' l'' _ IH1 _ IH2]; cbn.
  - reflexivity.
  - now rewrite IH.
  - destruct (f x), (f y); reflexivity.
  - congruence.
Qed.

Lemma experienced_Permutation (l l' : list CrewMember) :
  Permutation l l' -> length (experienced l) = length (experienced l').
Proof.
  unfold experienced.
  induction 1 as [|x l l' _ IH|x y l|l l' l'' _ IH1 _ IH2]; cbn.
  - reflexivity.
  - destruct (5 <=? years_experience x)%Z; cbn; now rewrite IH.
  - destruct (5 <=? years_experience x)%Z, (5 <=? years_experience y)%Z; reflexivity.
  - congruence.
Qed.

(** X11. The rules of a mission do not depend on the order of the crew
    list: [validate_rules] on a mission and on the same mission with its
    crew permuted end alike, both returning or both raising the same
    exception. *)
Theorem crew_order_irrelevant (self : ex2.SpaceMission) (crew' : list CrewMember) :
  Permutation (ex2.crew self) crew' ->
  verdict (ex2.validate_rules (with_crew self crew'))
  = verdict (ex2.validate_rules self).
Proof.
  intros Hperm. unfold ex2.validate_rules. cbv zeta.
  cbn [with_crew ex2.mission_id ex2.crew ex2.duration_days].
  rewrite <- (existsb_Permutation _ _ _ Hperm), <- (forallb_Permutation _ _ _ Hperm).
  rewrite !count_experimented_filter, <- (experienced_Permutation _ _ Hperm).
  unfold len. rewrite <- (Permutation_length Hperm).
  destruct (startswith (ex2.mission_id self) "M"); [|reflexivity].
  destruct (existsb _ (ex2.crew self)); [|reflexivity].
  cbn [raise_if negb bind_raised].
  destruct (ex2.duration_days self >? 365)%Z.
  - destruct (true_div _ _) as [ratio|e]; [|reflexivity]. cbn [bind_raised].
    destruct (PrimFloat.ltb _ _); [reflexivity|]. cbn [raise_if bind_raised].
    now destruct (forallb _ (ex2.crew self)).
  - cbn [bind_raised]. now destruct (forallb _ (ex2.crew self)).
Qed.

Lemma crew_order_irrelevant_witness :
  verdict (ex2.validate_rules
             (with_crew
                {| ex2.mission_id := "M2024_MARS"; ex2.mission_name := "Mars";
                   ex2.destination := "Mars";
                   ex2.launch_date := iso.midnight (2024, 1, 1)%Z;
                   ex2.duration_days := 900;
                   ex2.crew :=
                     [ Build_CrewMember "S001" "Sarah Connor" commander 27
                         "Mission Command" 9 true;
                       Build_CrewMember "A001" "Alice Johnson" officer 21
                         "Engineering" 3 true ];
                   ex2.mission_status := "planned";
                   ex2.budget_millions := 2500%float |}
                [ Build_CrewMember "A001" "Alice Johnson" officer 21
                    "Engineering" 3 true;
                  Build_CrewMember "S001" "Sarah Connor" commander 27
                    "Mission Command" 9 true ]))
  = None.
Proof.
  rewrite crew_order_irrelevant; [reflexivity|]. apply perm_swap.
Defined.

(** ** Crew members on their own *)

Lemma CrewMember_dump_fields `{Lax} (m : CrewMember) :
  CrewMember_constraints m ->
  ex2.CrewMember_fields (CrewMember_canonical m) = Pass m.
Proof.
  destruct m as [mid nm rk ag sp ye ac].
  unfold CrewMember_constraints. cbn.
  intros (Hmid & Hnm & Hag & Hsp & Hye).
  set (kw := CrewMember_canonical _). unfold ex2.CrewMember_fields.
  assert (kw @ ex2.f_member_id = Pass mid) as -> by exact_field.
  assert (kw @ ex2.f_name = Pass nm) as -> by exact_field.
  assert (kw @ ex2.f_rank = Pass rk) as -> by exact_field.
  assert (kw @ ex2.f_age = Pass ag) as -> by exact_field.
  assert (kw @ ex2.f_specialization = Pass sp) as -> by exact_field.
  assert (kw @ ex2.f_years_experience = Pass ye) as -> by exact_field.
  assert (kw @ ex2.f_is_active = Pass ac) as -> by exact_field.
  reflexivity.
Qed.

(** X12. A crew member that the [CrewMember] constructor returns can be
    built again from its canonical value: the constructor accepts it and
    returns the same member, and a mission accepts that dict in its crew
    as it accepts the member. *)
Theorem CrewMember_revalidation `{Lax} (kw : gmap string value) (m : CrewMember) :
  ex2.CrewMember_validate kw = Valid m ->
  ex2.CrewMember_validate (CrewMember_canonical m) = Valid m /\
  ex2.CrewMember_validator (VDict (CrewMember_canonical m))
    = ex2.CrewMember_validator (VCrewMember m).
Proof.
  intros Hvalid.
  apply model_validate_Valid_inv in Hvalid as (m0 & Hfields & [= <-]).
  apply CrewMember_fields_constraints in Hfields.
  unfold ex2.CrewMember_validate. cbn [ex2.CrewMember_validator].
  now rewrite CrewMember_dump_fields.
Qed.

Lemma CrewMember_revalidation_witness :
  ex2.CrewMember_validate
    (CrewMember_canonical
       (Build_CrewMember "S001" "Sarah Connor" commander 27 "Mission Command" 9 true))
  = Valid (Build_CrewMember "S001" "Sarah Connor" commander 27 "Mission Command" 9 true).
Proof.
  apply (CrewMember_revalidation sarah). vm_compute. reflexivity.
Defined.

(** ** The crew size of a station *)

(** X13. The bounds of [crew_size], on an accepted station: with the crew
    size replaced by an integer [n], the station is accepted when
    [1 <= n <= 20], with that crew size and nothing else changed; above 20
    the report is the single error [less_than_equal] at [crew_size], below 1
    the single error [greater_than_equal] at [crew_size]. *)
Theorem crew_size_bounds `{Lax} (kw : gmap string value)
    (self : ex0.SpaceStation) (n : Z) :
  ex0.validate kw = Valid self ->
  ex0.validate (<["crew_size" := VInt n]> kw) =
  if (20 <? n)%Z then
    ValidationError [ {| loc := [Key "crew_size"]; type := less_than_equal |} ]
  else if (n <? 1)%Z then
    ValidationError [ {| loc := [Key "crew_size"]; type := greater_than_equal |} ]
  else Valid (with_crew_size self n).
Proof.
  intros Hvalid.
  apply model_validate_Valid_inv in Hvalid as (self0 & Hfields & [= <-]).
  unfold ex0.model_fields in Hfields. invert_fields Hfields.
  unfold ex0.validate, ex0.model_fields.
  rewrite !validate_field_insert_ne by discriminate.
  rewrite !(validate_field_insert_ne _ ex0.f_power_level) by discriminate.
  rewrite !(validate_field_insert_ne _ ex0.f_oxygen_level) by discriminate.
  rewrite !(validate_field_insert_ne _ ex0.f_last_maintenance) by discriminate.
  rewrite !(validate_field_insert_ne _ ex0.f_is_operational) by discriminate.
  rewrite !(validate_field_insert_ne _ ex0.f_notes) by discriminate.
  rewrite (validate_field_insert _ ex0.f_crew_size).
  repeat match goal with Hv : kw @ _ = Pass _ |- _ => rewrite Hv; clear Hv end.
  unfold ex0.f_crew_size. cbn [validator fname]. unfold int_validator.
  cbn [above below].
  destruct (20 <? n)%Z; [reflexivity|]. destruct (n <? 1)%Z; reflexivity.
Qed.

(** The valid station of the program with 23 for its crew size. *)
Lemma crew_size_bounds_witness :
  ex0.validate (<["crew_size" := VInt 23]> valid_station) =
  ValidationError [ {| loc := [Key "crew_size"]; type := less_than_equal |} ].
Proof.
  eapply (crew_size_bounds valid_station _ 23). vm_compute. reflexivity.
Defined.

(** ** The paths of nested errors *)

Lemma field_error_loc {A} kw (f : FieldInfo A) e :
  (forall v, flat (validator f v)) ->
  In e (errs (kw @ f)) -> loc e = [Key (fname f)].
Proof.
  intros Hflat Hin.
  pose proof (report_of_loc kw f (fname f) (errs (kw @ f)) Hflat eq_refl) as Hall.
  rewrite List.Forall_forall in Hall. now apply Hall.
Qed.

Lemma items_error {A} (item : Validator A) l i0 e :
  In e (errs (validate_items item l i0)) ->
  exists i x e', l !! i = Some x /\ In e' (errs (item x))
                 /\ e = with_outer_location (Idx (i0 + i)) e'.
Proof.
  revert i0. induction l as [|x l IH]; intros i0; cbn [validate_items].
  - intros [].
  - rewrite !errs_ap, errs_at_loc. cbn [errs app]. rewrite in_app_iff.
    intros [Hin|Hin].
    + apply in_map_iff in Hin as (e' & <- & He').
      exists 0%nat, x, e'. rewrite Nat.add_0_r. auto.
    + apply IH in Hin as (i & y & e' & Hl & He' & ->).
      exists (S i), y, e'. replace (i0 + S i)%nat with (S i0 + i)%nat by lia. auto.
Qed.

Lemma CrewMember_error_loc `{Lax} x e :
  In e (errs (ex2.CrewMember_validator x)) ->
  loc e = [] \/
  exists f, In f [ "member_id"; "name"; "rank"; "age"; "specialization";
                   "years_experience"; "is_active" ] /\ loc e = [Key f].
Proof.
  unfold ex2.CrewMember_validator.
  destruct x; cbn [errs]; try (intros [<-|[]]; now left).
  - intros [].
  - unfold ex2.CrewMember_fields. rewrite !errs_ap, !in_app_iff. cbn [errs In].
    intros Hin. right.
    repeat (destruct Hin as [Hin|Hin]); try (now destruct Hin);
      (apply field_error_loc in Hin;
       [ eexists; split; [|exact Hin]; cbn; auto 10
       | intros v; cbn;
         auto using flat_str, flat_int, flat_bool, flat_enum ]).
Qed.

Lemma crew_field_error_loc `{Lax} (kw : gmap string value) e :
  In e (errs (kw @ ex2.f_crew)) ->
  loc e = [Key "crew"] \/
  exists l i, kw !! "crew" = Some (VList l) /\ (i < length l)%nat /\
    (loc e = [Key "crew"; Idx i] \/
     exists f, In f [ "member_id"; "name"; "rank"; "age"; "specialization";
                      "years_experience"; "is_active" ]
               /\ loc e = [Key "crew"; Idx i; Key f]).
Proof.
  unfold validate_field, ex2.f_crew. cbn [fname default validator].
  destruct (kw !! "crew") as [v|] eqn:Hk; [|intros [<-|[]]; now left].
  rewrite errs_at_loc. intros Hin. apply in_map_iff in Hin as (e0 & <- & Hin).
  unfold list_validator in Hin. cbn [above below] in Hin.
  destruct v; try (destruct Hin as [<-|[]]; now left).
  destruct (12 <? length l)%nat; [destruct Hin as [<-|[]]; now left|].
  destruct (validate_items ex2.CrewMember_validator l 0) as [out|es] eqn:Hitems.
  - destruct (length out <? 1)%nat; [destruct Hin as [<-|[]]; now left|destruct Hin].
  - cbn [errs] in Hin.
    assert (In e0 (errs (validate_items ex2.CrewMember_validator l 0))) as Hin'
      by now rewrite Hitems.
    apply items_error in Hin' as (i & x & e' & Hl & He' & ->).
    right. exists l, i. split; [reflexivity|].
    split; [now apply lookup_lt_Some in Hl|].
    apply CrewMember_error_loc in He' as [E|(f & Hf & E)]; cbn; rewrite E.
    + now left.
    + right. exists f. split; [exact Hf|reflexivity].
Qed.

(** X14. Where a nested error is reported. An error of a mission report
    whose path starts at [crew] either sits at [crew] itself (the list is
    missing, not a list, too short or too long) or names a member by its
    index in the given list, [crew[i]], alone when that entry is no crew
    member at all, or followed by the name of the offending field of the
    member. *)
Theorem crew_error_paths `{Lax} (kw : gmap string value)
    (report : list ErrorDetails) (e : ErrorDetails) (rest : list LocItem) :
  ex2.validate kw = ValidationError report ->
  In e report ->
  loc e = Key "crew" :: rest ->
  rest = [] \/
  exists l i, kw !! "crew" = Some (VList l) /\ (i < length l)%nat /\
    (rest = [Idx i] \/
     exists f, In f [ "member_id"; "name"; "rank"; "age"; "specialization";
                      "years_experience"; "is_active" ]
               /\ rest = [Idx i; Key f]).
Proof.
  intros Hr Hin Hloc.
  apply (two_tier_report _ _ ex2.rules) in Hr as [_ [(_ & _ & Hf)|(msg & _ & ->)]];
    auto using proper_ex2, field_level_ex2.
  - assert (In e (errs (ex2.model_fields kw))) as Hin' by now rewrite Hf.
    unfold ex2.model_fields in Hin'. rewrite !errs_ap, !in_app_iff in Hin'.
    cbn [errs In] in Hin'.
    repeat (destruct Hin' as [Hin'|Hin']); try (now destruct Hin');
      try (apply field_error_loc in Hin';
           [ rewrite Hin' in Hloc; discriminate
           | intros v; cbn;
             auto using flat_str, flat_int, flat_float, flat_datetime ]).
    apply crew_field_error_loc in Hin' as [E|(l & i & Hk & Hi & [E|(f & Hfn & E)])];
      rewrite E in Hloc; injection Hloc as <-.
    + now left.
    + right. exists l, i. auto.
    + right. exists l, i. eauto 10.
  - destruct Hin as [<-|[]]. discriminate.
  - intros self Hfields. apply ex2_first_violation. now apply (ex2_crew_length kw).
Qed.

(** The second member of the crew, aged 12. *)
Lemma crew_error_paths_witness :
  [Idx 1; Key "age"] = [] \/
  exists l i,
    mission [VDict sarah; VDict (<["age" := VInt 12]> john)] !! "crew"
      = Some (VList l) /\ (i < length l)%nat /\
    ([Idx 1; Key "age"] = [Idx i] \/
     exists f, In f [ "member_id"; "name"; "rank"; "age"; "specialization";
                      "years_experience"; "is_active" ]
               /\ [Idx 1; Key "age"] = [Idx i; Key f]).
Proof.
  apply (crew_error_paths
           (mission [VDict sarah; VDict (<["age" := VInt 12]> john)])
           [ {| loc := [Key "crew"; Idx 1; Key "age"]; type := greater_than_equal |} ]
           {| loc := [Key "crew"; Idx 1; Key "age"]; type := greater_than_equal |}).
  - vm_compute. reflexivity.
  - now left.
  - reflexivity.
Defined.

Lemma items_error_in {A} (item : Validator A) l i0 i x e' :
  l !! i = Some x -> In e' (errs (item x)) ->
  In (with_outer_location (Idx (i0 + i)) e') (errs (validate_items item l i0)).
Proof.
  revert i0 i. induction l as [|y l IH]; intros i0 i Hl He'; [discriminate|].
  cbn [validate_items]. rewrite !errs_ap, errs_at_loc. cbn [errs app].
  rewrite in_app_iff. destruct i as [|i].
  - injection Hl as ->. left. rewrite Nat.add_0_r. now apply in_map.
  - right. replace (i0 + S i)%nat with (S i0 + i)%nat by lia. now apply IH.
Qed.

(** X15. A required field missing in one member of the crew: when the
    crew list has 12 entries at most and its entry [i] is a dict without
    the required key [f], the report has a [missing] error at
    [crew[i].f], and no rule is evaluated. *)
Theorem nested_missing_field `{Lax} (kw : gmap string value) (l : list value)
    (i : nat) (d : gmap string value) (f : string) :
  kw !! "crew" = Some (VList l) -> (length l <= 12)%nat ->
  l !! i = Some (VDict d) -> d !! f = None ->
  In f [ "member_id"; "name"; "rank"; "age"; "specialization";
         "years_experience" ] ->
  exists errors,
    ex2.validate kw = ValidationError errors /\
    In {| loc := [Key "crew"; Idx i; Key f]; type := missing |} errors /\
    rule_errors errors = [].
Proof.
  intros Hk Hlen Hl Hd Hf.
  assert (In {| loc := [Key f]; type := missing |}
            (errs (ex2.CrewMember_validator (VDict d)))) as Hmember.
  { cbn [ex2.CrewMember_validator]. unfold ex2.CrewMember_fields.
    repeat (destruct Hf as [<-|Hf]; [missing_reported Hd|]). destruct Hf. }
  apply (items_error_in _ l 0 i _ _ Hl) in Hmember. cbn in Hmember.
  assert (In {| loc := [Key "crew"; Idx i; Key f]; type := missing |}
            (errs (kw @ ex2.f_crew))) as Hcrew.
  { unfold validate_field, ex2.f_crew. cbn [fname validator]. rewrite Hk.
    rewrite errs_at_loc. unfold list_validator. cbn [above].
    destruct (Nat.ltb_spec 12 (length l)); [lia|].
    destruct (validate_items ex2.CrewMember_validator l 0); [destruct Hmember|].
    cbn [errs] in *.
    now apply (in_map (with_outer_location (Key "crew"))) in Hmember. }
  exists (errs (ex2.model_fields kw)).
  assert (In {| loc := [Key "crew"; Idx i; Key f]; type := missing |}
            (errs (ex2.model_fields kw))) as Hin.
  { unfold ex2.model_fields. rewrite !errs_ap, !in_app_iff.
    pick_with ltac:(exact Hcrew). }
  split; [|split].
  - eapply field_stage_report, Hin.
  - exact Hin.
  - apply field_level_rule_errors, field_level_ex2.
Qed.

(** The third member of the crew, given without [rank]. *)
Lemma nested_missing_field_witness :
  exists errors,
    ex2.validate (mission [VDict sarah; VDict john; VDict (delete "rank" alice)])
      = ValidationError errors /\
    In {| loc := [Key "crew"; Idx 2; Key "rank"]; type := missing |} errors /\
    rule_errors errors = [].
Proof.
  apply (nested_missing_field _
           [VDict sarah; VDict john; VDict (delete "rank" alice)] 2
           (delete "rank" alice) "rank").
  - reflexivity.
  - cbn. lia.
  - reflexivity.
  - reflexivity.
  - cbn. auto 10.
Defined.

(** ** The strong-signal rule *)

(** X16. The strong-signal rule is strict: a contact report whose signal is
    not above 7.0 (7.0 itself included) needs no message; with its fields
    valid and the three other rules met it is accepted with or without
    [message_received]. *)
Theorem weak_signal_needs_no_message `{Lax} (kw : gmap string value)
    (self : ex1.AlienContact) :
  ex1.model_fields kw = Pass self ->
  startswith (ex1.contact_id self) "AC" = true ->
  (ex1.contact_type self = physical -> ex1.is_verified self = true) ->
  (ex1.contact_type self = telepathic -> (3 <= ex1.witness_count self)%Z) ->
  PrimFloat.ltb 7 (ex1.signal_strength self) = false ->
  ex1.validate kw = Valid self.
Proof.
  intros Hfields H1 H2 H3 H4.
  unfold ex1.validate, model_validate. rewrite Hfields, ex1_first_violation.
  rewrite (proj2 (ex1_no_violation_iff self)); [reflexivity|].
  repeat split; try assumption. intros H7. congruence.
Qed.

(** The valid contact report of the program at signal 7.0, without its
    message. *)
Lemma weak_signal_needs_no_message_witness :
  exists self,
    ex1.validate
      (delete "message_received" (<["signal_strength" := VFloat 7%float]> valid_contact))
    = Valid self /\
    ex1.signal_strength self = 7%float /\ ex1.message_received self = None.
Proof.
  eexists. split.
  - apply weak_signal_needs_no_message.
    + vm_compute. reflexivity.
    + reflexivity.
    + discriminate.
    + discriminate.
    + reflexivity.
  - split; reflexivity.
Defined.
